(** * My Book Archive: the state-synchronisation layer of [src/App.jsx]

    A shallow embedding of the [App] component's state (the [useState]
    hooks), of its event handlers ([saveBook], [toggleFav], [doDelete],
    the initial-load effect) and of the [filtered] projection, followed by
    the properties of the specification that concern them.

    Modelling conventions.
    - JavaScript strings are [string]s holding the UTF-8 encoding of
      the text (text without lone surrogates, on which a substring of
      code units is a substring of bytes); [trim] removes the
      WhiteSpace and LineTerminator code points of ECMA-262 and
      [toLowerCase] is the default lowercase conversion of Unicode,
      with the tables of Unicode 14.0.
    - The numbers held by the form are integers ([Z]), as the star
      buttons produce them; [Math.min] and [Math.max] are [Z.min] and
      [Z.max].  [NaN] and fractions are outside the model.
    - A book is a record with the seven fields of the REST resource, each
      of the type the resource documents (texts, an integer rating, a
      boolean flag); the object spreads of the source are written out
      field by field.  An identifier is a string or a number.
    - An [async] handler is a term of the free monad [prog]: it updates
      the component state through the hook setters, awaits [fetch] and
      may throw.  [exec] runs a handler to completion against a server. *)

From Stdlib Require Import String Ascii ZArith NArith Bool List Lia.
From ExtLib Require Import Structures.Monad Structures.MonadExc.
Import ListNotations.
Import MonadNotation.
Local Open Scope monad_scope.
Local Open Scope string_scope.
Local Open Scope Z_scope.

(** ** JavaScript primitives used by the component *)

Module JS.

(** *** Strings as UTF-8 text

    A string is the UTF-8 encoding of the text.  [chars] cuts it into
    its characters; a byte that does not belong to a well-formed
    sequence is a character of its own, which no function below
    changes. *)

Definition isContinuation (c : ascii) : bool :=
  let n := N_of_ascii c in (0x80 <=? n)%N && (n <? 0xC0)%N.

(** The length that the first byte of a sequence announces. *)
Definition width (c : ascii) : N :=
  let n := N_of_ascii c in
  if (n <? 0xC0)%N then 1%N
  else if (n <? 0xE0)%N then 2%N
  else if (n <? 0xF0)%N then 3%N
  else if (n <? 0xF8)%N then 4%N
  else 1%N.

Fixpoint chars (s : string) : list string :=
  match s with
  | EmptyString => []
  | String a s1 =>
      match s1 with
      | String b s2 =>
          if (width a =? 2)%N && isContinuation b then
            String a (String b EmptyString) :: chars s2
          else
            match s2 with
            | String c s3 =>
                if (width a =? 3)%N && isContinuation b && isContinuation c then
                  String a (String b (String c EmptyString)) :: chars s3
                else
                  match s3 with
                  | String d s4 =>
                      if (width a =? 4)%N && isContinuation b
                         && isContinuation c && isContinuation d
                      then String a (String b (String c (String d EmptyString)))
                           :: chars s4
                      else String a EmptyString :: chars s1
                  | EmptyString => String a EmptyString :: chars s1
                  end
            | EmptyString => String a EmptyString :: chars s1
            end
      | EmptyString => [String a EmptyString]
      end
  end.

(** The code point of a character; U+FFFD for an ill-formed byte. *)
Definition codePoint (ch : string) : N :=
  match ch with
  | String a EmptyString =>
      if (N_of_ascii a <? 0x80)%N then N_of_ascii a else 0xFFFD%N
  | String a (String b EmptyString) =>
      ((N_of_ascii a - 0xC0) * 0x40 + (N_of_ascii b - 0x80))%N
  | String a (String b (String c EmptyString)) =>
      ((N_of_ascii a - 0xE0) * 0x1000 + (N_of_ascii b - 0x80) * 0x40
       + (N_of_ascii c - 0x80))%N
  | String a (String b (String c (String d EmptyString))) =>
      ((N_of_ascii a - 0xF0) * 0x40000 + (N_of_ascii b - 0x80) * 0x1000
       + (N_of_ascii c - 0x80) * 0x40 + (N_of_ascii d - 0x80))%N
  | _ => 0xFFFD%N
  end.

(** [String.fromCodePoint(n)] *)
Definition fromCodePoint (n : N) : string :=
  if (n <? 0x80)%N then
    String (ascii_of_N n) EmptyString
  else if (n <? 0x800)%N then
    String (ascii_of_N (0xC0 + n / 0x40))
      (String (ascii_of_N (0x80 + n mod 0x40)) EmptyString)
  else if (n <? 0x10000)%N then
    String (ascii_of_N (0xE0 + n / 0x1000))
      (String (ascii_of_N (0x80 + (n / 0x40) mod 0x40))
         (String (ascii_of_N (0x80 + n mod 0x40)) EmptyString))
  else
    String (ascii_of_N (0xF0 + n / 0x40000))
      (String (ascii_of_N (0x80 + (n / 0x1000) mod 0x40))
         (String (ascii_of_N (0x80 + (n / 0x40) mod 0x40))
            (String (ascii_of_N (0x80 + n mod 0x40)) EmptyString))).

(** *** [String.prototype.trim]

    The code points that ECMA-262 calls WhiteSpace (TAB, VT, FF, the
    space separators of category Zs, ZWNBSP) and LineTerminator (LF, CR,
    LS, PS). *)
Definition whiteSpace : list N :=
  [0x9; 0xA; 0xB; 0xC; 0xD; 0x20; 0xA0; 0x1680;
   0x2000; 0x2001; 0x2002; 0x2003; 0x2004; 0x2005; 0x2006; 0x2007;
   0x2008; 0x2009; 0x200A; 0x2028; 0x2029; 0x202F; 0x205F; 0x3000;
   0xFEFF]%N.

(** Their encodings. *)
Definition whiteSpaceChars : list string :=
  Eval vm_compute in List.map fromCodePoint whiteSpace.

(** [w] is the beginning of [l]. *)
Fixpoint startsWith (w l : list ascii) : bool :=
  match w, l with
  | [], _ => true
  | a :: w', b :: l' => Ascii.eqb a b && startsWith w' l'
  | _ :: _, [] => false
  end.

(** Removes one of the sequences [W] from the beginning of [l]. *)
Definition stripOne (W : list (list ascii)) (l : list ascii) : option (list ascii) :=
  match List.find (fun w => startsWith w l) W with
  | Some w => Some (List.skipn (List.length w) l)
  | None => None
  end.

Fixpoint stripN (W : list (list ascii)) (fuel : nat) (l : list ascii) : list ascii :=
  match fuel with
  | O => l
  | S fuel' =>
      match stripOne W l with
      | Some l' => stripN W fuel' l'
      | None => l
      end
  end.

(** Removes the sequences [W] from the beginning of [l] as long as there
    is one; each removal shortens [l], so its length is fuel enough. *)
Definition strip (W : list (list ascii)) (l : list ascii) : list ascii :=
  stripN W (List.length l) l.

Definition whiteSpaceBytes : list (list ascii) :=
  Eval vm_compute in List.map list_ascii_of_string whiteSpaceChars.

(** [s.trimStart()] *)
Definition trimStart (s : string) : string :=
  string_of_list_ascii (strip whiteSpaceBytes (list_ascii_of_string s)).

(** [s.trimEnd()] *)
Definition trimEnd (s : string) : string :=
  string_of_list_ascii
    (List.rev (strip (List.map (@List.rev ascii) whiteSpaceBytes)
                     (List.rev (list_ascii_of_string s)))).

(** [s.trim()] *)
Definition trim (s : string) : string := trimEnd (trimStart s).

(** *** [String.prototype.toLowerCase]

    The default case conversion of Unicode, without locale: the simple
    lowercase mappings of UnicodeData.txt, the one unconditional special
    mapping (U+0130) and the Final_Sigma rule of SpecialCasing.txt.  The
    tables are those of Unicode 14.0. *)

(** [(lo, hi, step, target)]: the code points [lo], [lo + step], ... up
    to [hi] map to [target], [target + step], ...; the letters A-Z are
    handled apart. *)
Definition lowerRanges : list (N * N * N * N) :=
  [
   (0xC0, 0xD6, 1, 0xE0); (0xD8, 0xDE, 1, 0xF8); (0x100, 0x12E, 2, 0x101);
   (0x132, 0x136, 2, 0x133); (0x139, 0x147, 2, 0x13A); (0x14A, 0x176, 2, 0x14B);
   (0x178, 0x178, 1, 0xFF); (0x179, 0x17D, 2, 0x17A); (0x181, 0x181, 1, 0x253);
   (0x182, 0x184, 2, 0x183); (0x186, 0x186, 1, 0x254); (0x187, 0x187, 1, 0x188);
   (0x189, 0x18A, 1, 0x256); (0x18B, 0x18B, 1, 0x18C); (0x18E, 0x18E, 1, 0x1DD);
   (0x18F, 0x18F, 1, 0x259); (0x190, 0x190, 1, 0x25B); (0x191, 0x191, 1, 0x192);
   (0x193, 0x193, 1, 0x260); (0x194, 0x194, 1, 0x263); (0x196, 0x196, 1, 0x269);
   (0x197, 0x197, 1, 0x268); (0x198, 0x198, 1, 0x199); (0x19C, 0x19C, 1, 0x26F);
   (0x19D, 0x19D, 1, 0x272); (0x19F, 0x19F, 1, 0x275); (0x1A0, 0x1A4, 2, 0x1A1);
   (0x1A6, 0x1A6, 1, 0x280); (0x1A7, 0x1A7, 1, 0x1A8); (0x1A9, 0x1A9, 1, 0x283);
   (0x1AC, 0x1AC, 1, 0x1AD); (0x1AE, 0x1AE, 1, 0x288); (0x1AF, 0x1AF, 1, 0x1B0);
   (0x1B1, 0x1B2, 1, 0x28A); (0x1B3, 0x1B5, 2, 0x1B4); (0x1B7, 0x1B7, 1, 0x292);
   (0x1B8, 0x1B8, 1, 0x1B9); (0x1BC, 0x1BC, 1, 0x1BD); (0x1C4, 0x1C4, 1, 0x1C6);
   (0x1C5, 0x1C5, 1, 0x1C6); (0x1C7, 0x1C7, 1, 0x1C9); (0x1C8, 0x1C8, 1, 0x1C9);
   (0x1CA, 0x1CA, 1, 0x1CC); (0x1CB, 0x1DB, 2, 0x1CC); (0x1DE, 0x1EE, 2, 0x1DF);
   (0x1F1, 0x1F1, 1, 0x1F3); (0x1F2, 0x1F4, 2, 0x1F3); (0x1F6, 0x1F6, 1, 0x195);
   (0x1F7, 0x1F7, 1, 0x1BF); (0x1F8, 0x21E, 2, 0x1F9); (0x220, 0x220, 1, 0x19E);
   (0x222, 0x232, 2, 0x223); (0x23A, 0x23A, 1, 0x2C65); (0x23B, 0x23B, 1, 0x23C);
   (0x23D, 0x23D, 1, 0x19A); (0x23E, 0x23E, 1, 0x2C66); (0x241, 0x241, 1, 0x242);
   (0x243, 0x243, 1, 0x180); (0x244, 0x244, 1, 0x289); (0x245, 0x245, 1, 0x28C);
   (0x246, 0x24E, 2, 0x247); (0x370, 0x372, 2, 0x371); (0x376, 0x376, 1, 0x377);
   (0x37F, 0x37F, 1, 0x3F3); (0x386, 0x386, 1, 0x3AC); (0x388, 0x38A, 1, 0x3AD);
   (0x38C, 0x38C, 1, 0x3CC); (0x38E, 0x38F, 1, 0x3CD); (0x391, 0x3A1, 1, 0x3B1);
   (0x3A4, 0x3AB, 1, 0x3C4); (0x3CF, 0x3CF, 1, 0x3D7); (0x3D8, 0x3EE, 2, 0x3D9);
   (0x3F4, 0x3F4, 1, 0x3B8); (0x3F7, 0x3F7, 1, 0x3F8); (0x3F9, 0x3F9, 1, 0x3F2);
   (0x3FA, 0x3FA, 1, 0x3FB); (0x3FD, 0x3FF, 1, 0x37B); (0x400, 0x40F, 1, 0x450);
   (0x410, 0x42F, 1, 0x430); (0x460, 0x480, 2, 0x461); (0x48A, 0x4BE, 2, 0x48B);
   (0x4C0, 0x4C0, 1, 0x4CF); (0x4C1, 0x4CD, 2, 0x4C2); (0x4D0, 0x52E, 2, 0x4D1);
   (0x531, 0x556, 1, 0x561); (0x10A0, 0x10C5, 1, 0x2D00); (0x10C7, 0x10C7, 1, 0x2D27);
   (0x10CD, 0x10CD, 1, 0x2D2D); (0x13A0, 0x13EF, 1, 0xAB70); (0x13F0, 0x13F5, 1, 0x13F8);
   (0x1C90, 0x1CBA, 1, 0x10D0); (0x1CBD, 0x1CBF, 1, 0x10FD); (0x1E00, 0x1E94, 2, 0x1E01);
   (0x1E9E, 0x1E9E, 1, 0xDF); (0x1EA0, 0x1EFE, 2, 0x1EA1); (0x1F08, 0x1F0F, 1, 0x1F00);
   (0x1F18, 0x1F1D, 1, 0x1F10); (0x1F28, 0x1F2F, 1, 0x1F20); (0x1F38, 0x1F3F, 1, 0x1F30);
   (0x1F48, 0x1F4D, 1, 0x1F40); (0x1F59, 0x1F5F, 2, 0x1F51); (0x1F68, 0x1F6F, 1, 0x1F60);
   (0x1F88, 0x1F8F, 1, 0x1F80); (0x1F98, 0x1F9F, 1, 0x1F90); (0x1FA8, 0x1FAF, 1, 0x1FA0);
   (0x1FB8, 0x1FB9, 1, 0x1FB0); (0x1FBA, 0x1FBB, 1, 0x1F70); (0x1FBC, 0x1FBC, 1, 0x1FB3);
   (0x1FC8, 0x1FCB, 1, 0x1F72); (0x1FCC, 0x1FCC, 1, 0x1FC3); (0x1FD8, 0x1FD9, 1, 0x1FD0);
   (0x1FDA, 0x1FDB, 1, 0x1F76); (0x1FE8, 0x1FE9, 1, 0x1FE0); (0x1FEA, 0x1FEB, 1, 0x1F7A);
   (0x1FEC, 0x1FEC, 1, 0x1FE5); (0x1FF8, 0x1FF9, 1, 0x1F78); (0x1FFA, 0x1FFB, 1, 0x1F7C);
   (0x1FFC, 0x1FFC, 1, 0x1FF3); (0x2126, 0x2126, 1, 0x3C9); (0x212A, 0x212A, 1, 0x6B);
   (0x212B, 0x212B, 1, 0xE5); (0x2132, 0x2132, 1, 0x214E); (0x2160, 0x216F, 1, 0x2170);
   (0x2183, 0x2183, 1, 0x2184); (0x24B6, 0x24CF, 1, 0x24D0); (0x2C00, 0x2C2F, 1, 0x2C30);
   (0x2C60, 0x2C60, 1, 0x2C61); (0x2C62, 0x2C62, 1, 0x26B); (0x2C63, 0x2C63, 1, 0x1D7D);
   (0x2C64, 0x2C64, 1, 0x27D); (0x2C67, 0x2C6B, 2, 0x2C68); (0x2C6D, 0x2C6D, 1, 0x251);
   (0x2C6E, 0x2C6E, 1, 0x271); (0x2C6F, 0x2C6F, 1, 0x250); (0x2C70, 0x2C70, 1, 0x252);
   (0x2C72, 0x2C72, 1, 0x2C73); (0x2C75, 0x2C75, 1, 0x2C76); (0x2C7E, 0x2C7F, 1, 0x23F);
   (0x2C80, 0x2CE2, 2, 0x2C81); (0x2CEB, 0x2CED, 2, 0x2CEC); (0x2CF2, 0x2CF2, 1, 0x2CF3);
   (0xA640, 0xA66C, 2, 0xA641); (0xA680, 0xA69A, 2, 0xA681); (0xA722, 0xA72E, 2, 0xA723);
   (0xA732, 0xA76E, 2, 0xA733); (0xA779, 0xA77B, 2, 0xA77A); (0xA77D, 0xA77D, 1, 0x1D79);
   (0xA77E, 0xA786, 2, 0xA77F); (0xA78B, 0xA78B, 1, 0xA78C); (0xA78D, 0xA78D, 1, 0x265);
   (0xA790, 0xA792, 2, 0xA791); (0xA796, 0xA7A8, 2, 0xA797); (0xA7AA, 0xA7AA, 1, 0x266);
   (0xA7AB, 0xA7AB, 1, 0x25C); (0xA7AC, 0xA7AC, 1, 0x261); (0xA7AD, 0xA7AD, 1, 0x26C);
   (0xA7AE, 0xA7AE, 1, 0x26A); (0xA7B0, 0xA7B0, 1, 0x29E); (0xA7B1, 0xA7B1, 1, 0x287);
   (0xA7B2, 0xA7B2, 1, 0x29D); (0xA7B3, 0xA7B3, 1, 0xAB53); (0xA7B4, 0xA7C2, 2, 0xA7B5);
   (0xA7C4, 0xA7C4, 1, 0xA794); (0xA7C5, 0xA7C5, 1, 0x282); (0xA7C6, 0xA7C6, 1, 0x1D8E);
   (0xA7C7, 0xA7C9, 2, 0xA7C8); (0xA7D0, 0xA7D0, 1, 0xA7D1); (0xA7D6, 0xA7D8, 2, 0xA7D7);
   (0xA7F5, 0xA7F5, 1, 0xA7F6); (0xFF21, 0xFF3A, 1, 0xFF41); (0x10400, 0x10427, 1, 0x10428);
   (0x104B0, 0x104D3, 1, 0x104D8); (0x10570, 0x1057A, 1, 0x10597); (0x1057C, 0x1058A, 1, 0x105A3);
   (0x1058C, 0x10592, 1, 0x105B3); (0x10594, 0x10595, 1, 0x105BB); (0x10C80, 0x10CB2, 1, 0x10CC0);
   (0x118A0, 0x118BF, 1, 0x118C0); (0x16E40, 0x16E5F, 1, 0x16E60); (0x1E900, 0x1E921, 1, 0x1E922)
  ]%N.

Definition caseIgnorableRanges : list (N * N) :=
  [
   (0x27, 0x27); (0x2E, 0x2E); (0x3A, 0x3A); (0x5E, 0x5E); (0x60, 0x60);
   (0xA8, 0xA8); (0xAD, 0xAD); (0xAF, 0xAF); (0xB4, 0xB4); (0xB7, 0xB8);
   (0x2B0, 0x36F); (0x374, 0x375); (0x37A, 0x37A); (0x384, 0x385); (0x387, 0x387);
   (0x483, 0x489); (0x559, 0x559); (0x55F, 0x55F); (0x591, 0x5BD); (0x5BF, 0x5BF);
   (0x5C1, 0x5C2); (0x5C4, 0x5C5); (0x5C7, 0x5C7); (0x5F4, 0x5F4); (0x600, 0x605);
   (0x610, 0x61A); (0x61C, 0x61C); (0x640, 0x640); (0x64B, 0x65F); (0x670, 0x670);
   (0x6D6, 0x6DD); (0x6DF, 0x6E8); (0x6EA, 0x6ED); (0x70F, 0x70F); (0x711, 0x711);
   (0x730, 0x74A); (0x7A6, 0x7B0); (0x7EB, 0x7F5); (0x7FA, 0x7FA); (0x7FD, 0x7FD);
   (0x816, 0x82D); (0x859, 0x85B); (0x888, 0x888); (0x890, 0x891); (0x898, 0x89F);
   (0x8C9, 0x902); (0x93A, 0x93A); (0x93C, 0x93C); (0x941, 0x948); (0x94D, 0x94D);
   (0x951, 0x957); (0x962, 0x963); (0x971, 0x971); (0x981, 0x981); (0x9BC, 0x9BC);
   (0x9C1, 0x9C4); (0x9CD, 0x9CD); (0x9E2, 0x9E3); (0x9FE, 0x9FE); (0xA01, 0xA02);
   (0xA3C, 0xA3C); (0xA41, 0xA42); (0xA47, 0xA48); (0xA4B, 0xA4D); (0xA51, 0xA51);
   (0xA70, 0xA71); (0xA75, 0xA75); (0xA81, 0xA82); (0xABC, 0xABC); (0xAC1, 0xAC5);
   (0xAC7, 0xAC8); (0xACD, 0xACD); (0xAE2, 0xAE3); (0xAFA, 0xAFF); (0xB01, 0xB01);
   (0xB3C, 0xB3C); (0xB3F, 0xB3F); (0xB41, 0xB44); (0xB4D, 0xB4D); (0xB55, 0xB56);
   (0xB62, 0xB63); (0xB82, 0xB82); (0xBC0, 0xBC0); (0xBCD, 0xBCD); (0xC00, 0xC00);
   (0xC04, 0xC04); (0xC3C, 0xC3C); (0xC3E, 0xC40); (0xC46, 0xC48); (0xC4A, 0xC4D);
   (0xC55, 0xC56); (0xC62, 0xC63); (0xC81, 0xC81); (0xCBC, 0xCBC); (0xCBF, 0xCBF);
   (0xCC6, 0xCC6); (0xCCC, 0xCCD); (0xCE2, 0xCE3); (0xD00, 0xD01); (0xD3B, 0xD3C);
   (0xD41, 0xD44); (0xD4D, 0xD4D); (0xD62, 0xD63); (0xD81, 0xD81); (0xDCA, 0xDCA);
   (0xDD2, 0xDD4); (0xDD6, 0xDD6); (0xE31, 0xE31); (0xE34, 0xE3A); (0xE46, 0xE4E);
   (0xEB1, 0xEB1); (0xEB4, 0xEBC); (0xEC6, 0xEC6); (0xEC8, 0xECD); (0xF18, 0xF19);
   (0xF35, 0xF35); (0xF37, 0xF37); (0xF39, 0xF39); (0xF71, 0xF7E); (0xF80, 0xF84);
   (0xF86, 0xF87); (0xF8D, 0xF97); (0xF99, 0xFBC); (0xFC6, 0xFC6); (0x102D, 0x1030);
   (0x1032, 0x1037); (0x1039, 0x103A); (0x103D, 0x103E); (0x1058, 0x1059); (0x105E, 0x1060);
   (0x1071, 0x1074); (0x1082, 0x1082); (0x1085, 0x1086); (0x108D, 0x108D); (0x109D, 0x109D);
   (0x10FC, 0x10FC); (0x135D, 0x135F); (0x1712, 0x1714); (0x1732, 0x1733); (0x1752, 0x1753);
   (0x1772, 0x1773); (0x17B4, 0x17B5); (0x17B7, 0x17BD); (0x17C6, 0x17C6); (0x17C9, 0x17D3);
   (0x17D7, 0x17D7); (0x17DD, 0x17DD); (0x180B, 0x180F); (0x1843, 0x1843); (0x1885, 0x1886);
   (0x18A9, 0x18A9); (0x1920, 0x1922); (0x1927, 0x1928); (0x1932, 0x1932); (0x1939, 0x193B);
   (0x1A17, 0x1A18); (0x1A1B, 0x1A1B); (0x1A56, 0x1A56); (0x1A58, 0x1A5E); (0x1A60, 0x1A60);
   (0x1A62, 0x1A62); (0x1A65, 0x1A6C); (0x1A73, 0x1A7C); (0x1A7F, 0x1A7F); (0x1AA7, 0x1AA7);
   (0x1AB0, 0x1ACE); (0x1B00, 0x1B03); (0x1B34, 0x1B34); (0x1B36, 0x1B3A); (0x1B3C, 0x1B3C);
   (0x1B42, 0x1B42); (0x1B6B, 0x1B73); (0x1B80, 0x1B81); (0x1BA2, 0x1BA5); (0x1BA8, 0x1BA9);
   (0x1BAB, 0x1BAD); (0x1BE6, 0x1BE6); (0x1BE8, 0x1BE9); (0x1BED, 0x1BED); (0x1BEF, 0x1BF1);
   (0x1C2C, 0x1C33); (0x1C36, 0x1C37); (0x1C78, 0x1C7D); (0x1CD0, 0x1CD2); (0x1CD4, 0x1CE0);
   (0x1CE2, 0x1CE8); (0x1CED, 0x1CED); (0x1CF4, 0x1CF4); (0x1CF8, 0x1CF9); (0x1D2C, 0x1D6A);
   (0x1D78, 0x1D78); (0x1D9B, 0x1DFF); (0x1FBD, 0x1FBD); (0x1FBF, 0x1FC1); (0x1FCD, 0x1FCF);
   (0x1FDD, 0x1FDF); (0x1FED, 0x1FEF); (0x1FFD, 0x1FFE); (0x200B, 0x200F); (0x2018, 0x2019);
   (0x2024, 0x2024); (0x2027, 0x2027); (0x202A, 0x202E); (0x2060, 0x2064); (0x2066, 0x206F);
   (0x2071, 0x2071); (0x207F, 0x207F); (0x2090, 0x209C); (0x20D0, 0x20F0); (0x2C7C, 0x2C7D);
   (0x2CEF, 0x2CF1); (0x2D6F, 0x2D6F); (0x2D7F, 0x2D7F); (0x2DE0, 0x2DFF); (0x2E2F, 0x2E2F);
   (0x3005, 0x3005); (0x302A, 0x302D); (0x3031, 0x3035); (0x303B, 0x303B); (0x3099, 0x309E);
   (0x30FC, 0x30FE); (0xA015, 0xA015); (0xA4F8, 0xA4FD); (0xA60C, 0xA60C); (0xA66F, 0xA672);
   (0xA674, 0xA67D); (0xA67F, 0xA67F); (0xA69C, 0xA69F); (0xA6F0, 0xA6F1); (0xA700, 0xA721);
   (0xA770, 0xA770); (0xA788, 0xA78A); (0xA7F2, 0xA7F4); (0xA7F8, 0xA7F9); (0xA802, 0xA802);
   (0xA806, 0xA806); (0xA80B, 0xA80B); (0xA825, 0xA826); (0xA82C, 0xA82C); (0xA8C4, 0xA8C5);
   (0xA8E0, 0xA8F1); (0xA8FF, 0xA8FF); (0xA926, 0xA92D); (0xA947, 0xA951); (0xA980, 0xA982);
   (0xA9B3, 0xA9B3); (0xA9B6, 0xA9B9); (0xA9BC, 0xA9BD); (0xA9CF, 0xA9CF); (0xA9E5, 0xA9E6);
   (0xAA29, 0xAA2E); (0xAA31, 0xAA32); (0xAA35, 0xAA36); (0xAA43, 0xAA43); (0xAA4C, 0xAA4C);
   (0xAA70, 0xAA70); (0xAA7C, 0xAA7C); (0xAAB0, 0xAAB0); (0xAAB2, 0xAAB4); (0xAAB7, 0xAAB8);
   (0xAABE, 0xAABF); (0xAAC1, 0xAAC1); (0xAADD, 0xAADD); (0xAAEC, 0xAAED); (0xAAF3, 0xAAF4);
   (0xAAF6, 0xAAF6); (0xAB5B, 0xAB5F); (0xAB69, 0xAB6B); (0xABE5, 0xABE5); (0xABE8, 0xABE8);
   (0xABED, 0xABED); (0xFB1E, 0xFB1E); (0xFBB2, 0xFBC2); (0xFE00, 0xFE0F); (0xFE13, 0xFE13);
   (0xFE20, 0xFE2F); (0xFE52, 0xFE52); (0xFE55, 0xFE55); (0xFEFF, 0xFEFF); (0xFF07, 0xFF07);
   (0xFF0E, 0xFF0E); (0xFF1A, 0xFF1A); (0xFF3E, 0xFF3E); (0xFF40, 0xFF40); (0xFF70, 0xFF70);
   (0xFF9E, 0xFF9F); (0xFFE3, 0xFFE3); (0xFFF9, 0xFFFB); (0x101FD, 0x101FD); (0x102E0, 0x102E0);
   (0x10376, 0x1037A); (0x10780, 0x10785); (0x10787, 0x107B0); (0x107B2, 0x107BA); (0x10A01, 0x10A03);
   (0x10A05, 0x10A06); (0x10A0C, 0x10A0F); (0x10A38, 0x10A3A); (0x10A3F, 0x10A3F); (0x10AE5, 0x10AE6);
   (0x10D24, 0x10D27); (0x10EAB, 0x10EAC); (0x10F46, 0x10F50); (0x10F82, 0x10F85); (0x11001, 0x11001);
   (0x11038, 0x11046); (0x11070, 0x11070); (0x11073, 0x11074); (0x1107F, 0x11081); (0x110B3, 0x110B6);
   (0x110B9, 0x110BA); (0x110BD, 0x110BD); (0x110C2, 0x110C2); (0x110CD, 0x110CD); (0x11100, 0x11102);
   (0x11127, 0x1112B); (0x1112D, 0x11134); (0x11173, 0x11173); (0x11180, 0x11181); (0x111B6, 0x111BE);
   (0x111C9, 0x111CC); (0x111CF, 0x111CF); (0x1122F, 0x11231); (0x11234, 0x11234); (0x11236, 0x11237);
   (0x1123E, 0x1123E); (0x112DF, 0x112DF); (0x112E3, 0x112EA); (0x11300, 0x11301); (0x1133B, 0x1133C);
   (0x11340, 0x11340); (0x11366, 0x1136C); (0x11370, 0x11374); (0x11438, 0x1143F); (0x11442, 0x11444);
   (0x11446, 0x11446); (0x1145E, 0x1145E); (0x114B3, 0x114B8); (0x114BA, 0x114BA); (0x114BF, 0x114C0);
   (0x114C2, 0x114C3); (0x115B2, 0x115B5); (0x115BC, 0x115BD); (0x115BF, 0x115C0); (0x115DC, 0x115DD);
   (0x11633, 0x1163A); (0x1163D, 0x1163D); (0x1163F, 0x11640); (0x116AB, 0x116AB); (0x116AD, 0x116AD);
   (0x116B0, 0x116B5); (0x116B7, 0x116B7); (0x1171D, 0x1171F); (0x11722, 0x11725); (0x11727, 0x1172B);
   (0x1182F, 0x11837); (0x11839, 0x1183A); (0x1193B, 0x1193C); (0x1193E, 0x1193E); (0x11943, 0x11943);
   (0x119D4, 0x119D7); (0x119DA, 0x119DB); (0x119E0, 0x119E0); (0x11A01, 0x11A0A); (0x11A33, 0x11A38);
   (0x11A3B, 0x11A3E); (0x11A47, 0x11A47); (0x11A51, 0x11A56); (0x11A59, 0x11A5B); (0x11A8A, 0x11A96);
   (0x11A98, 0x11A99); (0x11C30, 0x11C36); (0x11C38, 0x11C3D); (0x11C3F, 0x11C3F); (0x11C92, 0x11CA7);
   (0x11CAA, 0x11CB0); (0x11CB2, 0x11CB3); (0x11CB5, 0x11CB6); (0x11D31, 0x11D36); (0x11D3A, 0x11D3A);
   (0x11D3C, 0x11D3D); (0x11D3F, 0x11D45); (0x11D47, 0x11D47); (0x11D90, 0x11D91); (0x11D95, 0x11D95);
   (0x11D97, 0x11D97); (0x11EF3, 0x11EF4); (0x13430, 0x13438); (0x16AF0, 0x16AF4); (0x16B30, 0x16B36);
   (0x16B40, 0x16B43); (0x16F4F, 0x16F4F); (0x16F8F, 0x16F9F); (0x16FE0, 0x16FE1); (0x16FE3, 0x16FE4);
   (0x1AFF0, 0x1AFF3); (0x1AFF5, 0x1AFFB); (0x1AFFD, 0x1AFFE); (0x1BC9D, 0x1BC9E); (0x1BCA0, 0x1BCA3);
   (0x1CF00, 0x1CF2D); (0x1CF30, 0x1CF46); (0x1D167, 0x1D169); (0x1D173, 0x1D182); (0x1D185, 0x1D18B);
   (0x1D1AA, 0x1D1AD); (0x1D242, 0x1D244); (0x1DA00, 0x1DA36); (0x1DA3B, 0x1DA6C); (0x1DA75, 0x1DA75);
   (0x1DA84, 0x1DA84); (0x1DA9B, 0x1DA9F); (0x1DAA1, 0x1DAAF); (0x1E000, 0x1E006); (0x1E008, 0x1E018);
   (0x1E01B, 0x1E021); (0x1E023, 0x1E024); (0x1E026, 0x1E02A); (0x1E130, 0x1E13D); (0x1E2AE, 0x1E2AE);
   (0x1E2EC, 0x1E2EF); (0x1E8D0, 0x1E8D6); (0x1E944, 0x1E94B); (0x1F3FB, 0x1F3FF); (0xE0001, 0xE0001);
   (0xE0020, 0xE007F); (0xE0100, 0xE01EF)
  ]%N.

Definition casedRanges : list (N * N) :=
  [
   (0x41, 0x5A); (0x61, 0x7A); (0xAA, 0xAA); (0xB5, 0xB5); (0xBA, 0xBA);
   (0xC0, 0xD6); (0xD8, 0xF6); (0xF8, 0x1BA); (0x1BC, 0x1BF); (0x1C4, 0x293);
   (0x295, 0x2AF); (0x370, 0x373); (0x376, 0x377); (0x37B, 0x37D); (0x37F, 0x37F);
   (0x386, 0x386); (0x388, 0x38A); (0x38C, 0x38C); (0x38E, 0x3A1); (0x3A3, 0x3F5);
   (0x3F7, 0x481); (0x48A, 0x52F); (0x531, 0x556); (0x560, 0x588); (0x10A0, 0x10C5);
   (0x10C7, 0x10C7); (0x10CD, 0x10CD); (0x10D0, 0x10FA); (0x10FD, 0x10FF); (0x13A0, 0x13F5);
   (0x13F8, 0x13FD); (0x1C80, 0x1C88); (0x1C90, 0x1CBA); (0x1CBD, 0x1CBF); (0x1D00, 0x1D2B);
   (0x1D6B, 0x1D77); (0x1D79, 0x1D9A); (0x1E00, 0x1F15); (0x1F18, 0x1F1D); (0x1F20, 0x1F45);
   (0x1F48, 0x1F4D); (0x1F50, 0x1F57); (0x1F59, 0x1F59); (0x1F5B, 0x1F5B); (0x1F5D, 0x1F5D);
   (0x1F5F, 0x1F7D); (0x1F80, 0x1FB4); (0x1FB6, 0x1FBC); (0x1FBE, 0x1FBE); (0x1FC2, 0x1FC4);
   (0x1FC6, 0x1FCC); (0x1FD0, 0x1FD3); (0x1FD6, 0x1FDB); (0x1FE0, 0x1FEC); (0x1FF2, 0x1FF4);
   (0x1FF6, 0x1FFC); (0x2102, 0x2102); (0x2107, 0x2107); (0x210A, 0x2113); (0x2115, 0x2115);
   (0x2119, 0x211D); (0x2124, 0x2124); (0x2126, 0x2126); (0x2128, 0x2128); (0x212A, 0x212D);
   (0x212F, 0x2134); (0x2139, 0x2139); (0x213C, 0x213F); (0x2145, 0x2149); (0x214E, 0x214E);
   (0x2160, 0x217F); (0x2183, 0x2184); (0x24B6, 0x24E9); (0x2C00, 0x2C7B); (0x2C7E, 0x2CE4);
   (0x2CEB, 0x2CEE); (0x2CF2, 0x2CF3); (0x2D00, 0x2D25); (0x2D27, 0x2D27); (0x2D2D, 0x2D2D);
   (0xA640, 0xA66D); (0xA680, 0xA69B); (0xA722, 0xA76F); (0xA771, 0xA787); (0xA78B, 0xA78E);
   (0xA790, 0xA7CA); (0xA7D0, 0xA7D1); (0xA7D3, 0xA7D3); (0xA7D5, 0xA7D9); (0xA7F5, 0xA7F6);
   (0xA7FA, 0xA7FA); (0xAB30, 0xAB5A); (0xAB60, 0xAB68); (0xAB70, 0xABBF); (0xFB00, 0xFB06);
   (0xFB13, 0xFB17); (0xFF21, 0xFF3A); (0xFF41, 0xFF5A); (0x10400, 0x1044F); (0x104B0, 0x104D3);
   (0x104D8, 0x104FB); (0x10570, 0x1057A); (0x1057C, 0x1058A); (0x1058C, 0x10592); (0x10594, 0x10595);
   (0x10597, 0x105A1); (0x105A3, 0x105B1); (0x105B3, 0x105B9); (0x105BB, 0x105BC); (0x10C80, 0x10CB2);
   (0x10CC0, 0x10CF2); (0x118A0, 0x118DF); (0x16E40, 0x16E7F); (0x1D400, 0x1D454); (0x1D456, 0x1D49C);
   (0x1D49E, 0x1D49F); (0x1D4A2, 0x1D4A2); (0x1D4A5, 0x1D4A6); (0x1D4A9, 0x1D4AC); (0x1D4AE, 0x1D4B9);
   (0x1D4BB, 0x1D4BB); (0x1D4BD, 0x1D4C3); (0x1D4C5, 0x1D505); (0x1D507, 0x1D50A); (0x1D50D, 0x1D514);
   (0x1D516, 0x1D51C); (0x1D51E, 0x1D539); (0x1D53B, 0x1D53E); (0x1D540, 0x1D544); (0x1D546, 0x1D546);
   (0x1D54A, 0x1D550); (0x1D552, 0x1D6A5); (0x1D6A8, 0x1D6C0); (0x1D6C2, 0x1D6DA); (0x1D6DC, 0x1D6FA);
   (0x1D6FC, 0x1D714); (0x1D716, 0x1D734); (0x1D736, 0x1D74E); (0x1D750, 0x1D76E); (0x1D770, 0x1D788);
   (0x1D78A, 0x1D7A8); (0x1D7AA, 0x1D7C2); (0x1D7C4, 0x1D7CB); (0x1DF00, 0x1DF09); (0x1DF0B, 0x1DF1E);
   (0x1E900, 0x1E943); (0x1F130, 0x1F149); (0x1F150, 0x1F169); (0x1F170, 0x1F189)
  ]%N.

Definition inRange (n : N) (r : N * N) : bool :=
  ((fst r <=? n) && (n <=? snd r))%N.

(** Case_Ignorable: skipped when looking for a cased letter. *)
Definition isCaseIgnorable (n : N) : bool := existsb (inRange n) caseIgnorableRanges.

(** Cased, and not Case_Ignorable. *)
Definition isCased (n : N) : bool := existsb (inRange n) casedRanges.

(** The simple lowercase mapping of a code point, when it has one. *)
Definition lowerCodePoint (n : N) : option N :=
  if (n <? 0x80)%N then
    if ((0x41 <=? n) && (n <=? 0x5A))%N then Some (n + 0x20)%N else None
  else
    match List.find (fun r : N * N * N * N =>
                       let '(lo, hi, step, _) := r in
                       ((lo <=? n) && (n <=? hi) && ((n - lo) mod step =? 0))%N)
                    lowerRanges with
    | Some (lo, _, _, target) => Some (target + (n - lo))%N
    | None => None
    end.

(** Skipping the case-ignorable code points of [l], the next one is a
    cased letter. *)
Fixpoint meetsCased (l : list N) : bool :=
  match l with
  | [] => false
  | n :: l' => if isCaseIgnorable n then meetsCased l' else isCased n
  end.

(** The lowercase of the character [ch], whose predecessors are [before]
    (the nearest first) and whose successors are [after]. *)
Definition lowerChar (before : list N) (ch : string) (after : list N) : string :=
  let n := codePoint ch in
  if (n =? 0x3A3)%N then
    if meetsCased before && negb (meetsCased after)
    then fromCodePoint 0x3C2
    else fromCodePoint 0x3C3
  else if (n =? 0x130)%N then
    (fromCodePoint 0x69 ++ fromCodePoint 0x307)%string
  else
    match lowerCodePoint n with
    | Some m => fromCodePoint m
    | None => ch
    end.

Fixpoint lowerFrom (before : list N) (l : list string) : list string :=
  match l with
  | [] => []
  | ch :: rest =>
      lowerChar before ch (List.map codePoint rest)
      :: lowerFrom (codePoint ch :: before) rest
  end.

(** [s.toLowerCase()] *)
Definition toLowerCase (s : string) : string :=
  String.concat EmptyString (lowerFrom [] (chars s)).

(** [s.includes(sub)] *)
Fixpoint includes (s sub : string) : bool :=
  String.prefix sub s
  || match s with
     | EmptyString => false
     | String _ s' => includes s' sub
     end.

(** Truthiness of a string: only the empty string is falsy. *)
Definition truthy_str (s : string) : bool :=
  match s with EmptyString => false | _ => true end.

(** [a || b] on strings. *)
Definition or_str (a b : string) : string := if truthy_str a then a else b.

(** Truthiness of a number: [0] is falsy. *)
Definition truthy_num (n : Z) : bool := negb (n =? 0).

(** [a || b] on numbers. *)
Definition or_num (a b : Z) : Z := if truthy_num a then a else b.

(** [Number(n)] of a number is that number. *)
Definition Number (n : Z) : Z := n.

End JS.

(** ** Data model *)

(** A record identifier is a JSON primitive: a string or a number. *)
Inductive Id : Type :=
| IdStr (s : string)
| IdNum (n : Z).

(** [a === b] on identifiers: same type and same value, no coercion. *)
Definition Id_eqb (a b : Id) : bool :=
match a, b with
| IdStr s, IdStr t => String.eqb s t
| IdNum n, IdNum m => Z.eqb n m
| _, _ => false
end.

(** Truthiness of an identifier, as tested by [if (!id)]. *)
Definition Id_truthy (a : Id) : bool :=
match a with
| IdStr s => JS.truthy_str s
| IdNum n => JS.truthy_num n
end.

(** The form state, which is also the shape of [payload] in [saveBook]. *)
Module Form.
Record t : Type := mk {
  title : string;
  author : string;
  coverImage : string;
  description : string;
  rating : Z
}.
End Form.

(** The body of a POST: a book without its [id]. *)
Module Body.
Record t : Type := mk {
  title : string;
  author : string;
  coverImage : string;
  description : string;
  rating : Z;
  isFavorite : bool
}.
End Body.

Module Book.
Record t : Type := mk {
  id : Id;
  title : string;
  author : string;
  coverImage : string;
  description : string;
  rating : Z;
  isFavorite : bool
}.
End Book.

Inductive ToastType : Type := success | error | info.

Record Toast : Type := mkToast {
  show : bool;
  msg : string;
  type : ToastType
}.

(** The [useState] hooks of [App]. *)
Record state : Type := mkState {
  books : list Book.t;
  loading : bool;
  q : string;
  onlyFav : bool;
  toast : Toast;
  isModalOpen : bool;
  editing : option Book.t;
  confirmId : option Id;
  form : Form.t
}.

Definition API_URL : string :=
  "https://698861e1780e8375a6882998.mockapi.io/api/v1/books".

Definition hasApi : bool := JS.truthy_str API_URL.

Definition emptyForm : Form.t := Form.mk "" "" "" "" 0.

(** The state of the first render. *)
Definition init : state :=
  {| books := [];
     loading := hasApi;
     q := "";
     onlyFav := false;
     toast := mkToast false "" success;
     isModalOpen := false;
     editing := None;
     confirmId := None;
     form := emptyForm |}.

(** *** Hook setters

    [setBooks], [setForm] and [setOnlyFav] take an updater function, as
    most of their calls do; a call with a value [v] passes [fun _ => v]. *)

Definition setBooks (f : list Book.t -> list Book.t) (s : state) : state :=
  mkState (f (books s)) (loading s) (q s) (onlyFav s) (toast s)
          (isModalOpen s) (editing s) (confirmId s) (form s).

Definition setLoading (v : bool) (s : state) : state :=
  mkState (books s) v (q s) (onlyFav s) (toast s)
          (isModalOpen s) (editing s) (confirmId s) (form s).

Definition setQ (v : string) (s : state) : state :=
  mkState (books s) (loading s) v (onlyFav s) (toast s)
          (isModalOpen s) (editing s) (confirmId s) (form s).

Definition setOnlyFav (f : bool -> bool) (s : state) : state :=
  mkState (books s) (loading s) (q s) (f (onlyFav s)) (toast s)
          (isModalOpen s) (editing s) (confirmId s) (form s).

Definition setToast (v : Toast) (s : state) : state :=
  mkState (books s) (loading s) (q s) (onlyFav s) v
          (isModalOpen s) (editing s) (confirmId s) (form s).

Definition setIsModalOpen (v : bool) (s : state) : state :=
  mkState (books s) (loading s) (q s) (onlyFav s) (toast s)
          v (editing s) (confirmId s) (form s).

Definition setEditing (v : option Book.t) (s : state) : state :=
  mkState (books s) (loading s) (q s) (onlyFav s) (toast s)
          (isModalOpen s) v (confirmId s) (form s).

Definition setConfirmId (v : option Id) (s : state) : state :=
  mkState (books s) (loading s) (q s) (onlyFav s) (toast s)
          (isModalOpen s) (editing s) v (form s).

Definition setForm (f : Form.t -> Form.t) (s : state) : state :=
  mkState (books s) (loading s) (q s) (onlyFav s) (toast s)
          (isModalOpen s) (editing s) (confirmId s) (f (form s)).

(** ** The remote resource *)

(** A decoded GET body, as far as [Array.isArray] distinguishes it. *)
Inductive listing : Type :=
| JArray (data : list Book.t)
| JOther.

(** The four calls issued by the [api*] helpers, indexed by the type of
    the JSON body that a success carries. *)
Inductive request : Type -> Type :=
| GET : request listing
| POST (data : Body.t) : request Book.t
| PUT (i : Id) (data : Book.t) : request Book.t
| DELETE (i : Id) : request unit.

(** What [await fetch(...)] followed by [res.json()] can produce. *)
Inductive reply (R : Type) : Type :=
| NetworkFailure            (* the promise of [fetch] rejects *)
| HttpError                 (* [res.ok] is false *)
| HttpOk (json : R).        (* [res.ok] is true, [res.json()] is [json] *)

Arguments NetworkFailure {R}.
Arguments HttpError {R}.
Arguments HttpOk {R} json.

(** A remote call as it appears in a trace. *)
Inductive call : Type :=
| Call {R : Type} (r : request R).

(** ** Handlers as programs *)

Inductive prog (A : Type) : Type :=
| Ret (a : A)
| Throw
| SetState (f : state -> state) (k : prog A)
| Await {R : Type} (r : request R) (k : reply R -> prog A).

Arguments Ret {A} a.
Arguments Throw {A}.
Arguments SetState {A} f k.
Arguments Await {A R} r k.

Fixpoint prog_bind {A B : Type} (p : prog A) (g : A -> prog B) : prog B :=
  match p with
  | Ret a => g a
  | Throw => Throw
  | SetState f k => SetState f (prog_bind k g)
  | Await r k => Await r (fun x => prog_bind (k x) g)
  end.

(** [try { p } catch { h }] *)
Fixpoint prog_catch {A : Type} (p : prog A) (h : unit -> prog A) : prog A :=
  match p with
  | Ret a => Ret a
  | Throw => h tt
  | SetState f k => SetState f (prog_catch k h)
  | Await r k => Await r (fun x => prog_catch (k x) h)
  end.

(** [try { p } finally { fin }] *)
Fixpoint prog_finally {A : Type} (p : prog A) (fin : prog unit) : prog A :=
  match p with
  | Ret a => prog_bind fin (fun _ => Ret a)
  | Throw => prog_bind fin (fun _ => Throw)
  | SetState f k => SetState f (prog_finally k fin)
  | Await r k => Await r (fun x => prog_finally (k x) fin)
  end.

#[export] Instance Monad_prog : Monad prog :=
  {| ret := @Ret; bind := @prog_bind |}.

#[export] Instance MonadExc_prog : MonadExc unit prog :=
  {| raise := fun _ _ => Throw; catch := @prog_catch |}.

(** A call of a hook setter. *)
Definition update (f : state -> state) : prog unit := SetState f (Ret tt).

(** [await fetch(...)], then [res.ok] and [res.json()]. *)
Definition fetch {R : Type} (r : request R) : prog (reply R) := Await r Ret.

(** *** Running a handler *)

Definition server : Type := forall R : Type, request R -> reply R.

Record outcome (A : Type) : Type := mkOutcome {
  final : state;             (* the component state when the handler settles *)
  result : option A;         (* [None]: the promise rejects *)
  calls : list call          (* the remote calls issued, in order *)
}.

Arguments mkOutcome {A} final result calls.
Arguments final {A} o.
Arguments result {A} o.
Arguments calls {A} o.

Fixpoint exec {A : Type} (srv : server) (p : prog A) (st : state) : outcome A :=
  match p with
  | Ret a => mkOutcome st (Some a) []
  | Throw => mkOutcome st None []
  | SetState f k => exec srv k (f st)
  | Await r k =>
      let o := exec srv (k (srv _ r)) st in
      mkOutcome (final o) (result o) (Call r :: calls o)
  end.

(** A server on which every call fails, by rejection or by status. *)
Definition fails {R : Type} (x : reply R) : bool :=
  match x with
  | HttpOk _ => false
  | _ => true
  end.

(** ** The component's handlers *)

(** [showToast(msg, type)]; the timer that hides the toast is not part
    of the model. *)
Definition showToast (m : string) (ty : ToastType) : prog unit :=
  update (setToast (mkToast true m ty)).

Definition resetForm : prog unit :=
  update (setForm (fun _ => emptyForm)).

Definition openCreate : prog unit :=
  update (setEditing None) ;;
  resetForm ;;
  update (setIsModalOpen true).

Definition openEdit (book : Book.t) : prog unit :=
  update (setEditing (Some book)) ;;
  update (setForm (fun _ =>
    Form.mk (JS.or_str (Book.title book) "")
            (JS.or_str (Book.author book) "")
            (JS.or_str (Book.coverImage book) "")
            (JS.or_str (Book.description book) "")
            (JS.Number (JS.or_num (Book.rating book) 0)))) ;;
  update (setIsModalOpen true).

Definition closeModal : prog unit :=
  update (setIsModalOpen false) ;;
  update (setEditing None).

(** *** API helpers *)

Definition apiGet : prog listing :=
  res <- fetch GET ;;
  match res with
  | NetworkFailure => raise tt
  | HttpError => raise tt             (* throw new Error("GET failed") *)
  | HttpOk json => ret json
  end.

Definition apiPost (data : Body.t) : prog Book.t :=
  res <- fetch (POST data) ;;
  match res with
  | NetworkFailure => raise tt
  | HttpError => raise tt             (* throw new Error("POST failed") *)
  | HttpOk json => ret json
  end.

Definition apiPut (i : Id) (data : Book.t) : prog Book.t :=
  res <- fetch (PUT i data) ;;
  match res with
  | NetworkFailure => raise tt
  | HttpError => raise tt             (* throw new Error("PUT failed") *)
  | HttpOk json => ret json
  end.

Definition apiDel (i : Id) : prog unit :=
  res <- fetch (DELETE i) ;;
  match res with
  | NetworkFailure => raise tt
  | HttpError => raise tt             (* throw new Error("DELETE failed") *)
  | HttpOk _ => ret tt
  end.

(** *** Initial load (the mount effect) *)

Definition initialLoad : prog unit :=
  if negb hasApi then
    update (setLoading false)
  else
    prog_finally
      (catch
         (data <- apiGet ;;
          update (setBooks (fun _ =>
            match data with          (* Array.isArray(data) ? data : [] *)
            | JArray l => l
            | JOther => []
            end)))
         (fun _ => showToast "❌ Cannot load books. Check your API URL." error))
      (update (setLoading false)).

(** *** Filter list by search + favorites *)

Definition filtered (st : state) : list Book.t :=
  let query := JS.toLowerCase (JS.trim (q st)) in
  List.filter
    (fun b =>
       if JS.truthy_str query
       then JS.includes (JS.toLowerCase (JS.or_str (Book.title b) "")) query
       else true)
    (List.filter
       (fun b => if onlyFav st then negb (negb (Book.isFavorite b)) else true)
       (books st)).

(** The header counters. *)
Definition total (st : state) : nat := List.length (books st).

Definition favorites (st : state) : nat :=
  List.length (List.filter Book.isFavorite (books st)).

(** *** Save (create or update) *)

Definition placeholder : string := "https://picsum.photos/400/520".

(** [payload] of [saveBook]. *)
Definition payload (f : Form.t) : Form.t :=
  let ratingNum := Z.max 0 (Z.min 5 (JS.Number (JS.or_num (Form.rating f) 0))) in
  Form.mk (JS.trim (Form.title f))
          (JS.trim (Form.author f))
          (JS.or_str (JS.trim (Form.coverImage f)) placeholder)
          (JS.trim (Form.description f))
          ratingNum.

(** [{ ...editing, ...payload }] *)
Definition spread_edit (e : Book.t) (p : Form.t) : Book.t :=
  Book.mk (Book.id e)
          (Form.title p) (Form.author p) (Form.coverImage p)
          (Form.description p) (Form.rating p)
          (Book.isFavorite e).

(** [{ ...payload, isFavorite: false }] *)
Definition spread_create (p : Form.t) : Body.t :=
  Body.mk (Form.title p) (Form.author p) (Form.coverImage p)
          (Form.description p) (Form.rating p)
          false.

(** [prev.map((b) => (b.id === updated.id ? updated : b))] *)
Definition replaceById (updated : Book.t) (prev : list Book.t) : list Book.t :=
  List.map (fun b => if Id_eqb (Book.id b) (Book.id updated) then updated else b) prev.

(** The handler closes over [form] and [editing] of the render [st] in
    which it was created. *)
Definition saveBook (st : state) : prog unit :=
  if negb (JS.truthy_str (JS.trim (Form.title (form st))))
     || negb (JS.truthy_str (JS.trim (Form.author (form st))))
  then
    showToast "Please fill Title and Author" error
  else
    let payload := payload (form st) in
    catch
      (match editing st with
       | Some editing =>
           updated <- apiPut (Book.id editing) (spread_edit editing payload) ;;
           update (setBooks (replaceById updated)) ;;
           showToast "✅ Book updated" success
       | None =>
           created <- apiPost (spread_create payload) ;;
           update (setBooks (fun prev => (prev ++ [created])%list)) ;;
           showToast "✅ Book added" success
       end ;;
       closeModal ;;
       resetForm)
      (fun _ => showToast "❌ Save failed. Check API / network." error).

(** *** Toggle favorite *)

(** [{ ...book, isFavorite: !book.isFavorite }] *)
Definition spread_toggle (book : Book.t) : Book.t :=
  Book.mk (Book.id book)
          (Book.title book) (Book.author book) (Book.coverImage book)
          (Book.description book) (Book.rating book)
          (negb (Book.isFavorite book)).

Definition toggleFav (book : Book.t) : prog unit :=
  catch
    (updated <- apiPut (Book.id book) (spread_toggle book) ;;
     update (setBooks (replaceById updated)) ;;
     showToast (if Book.isFavorite updated
                then "❤️ Added to favorites"
                else "🤍 Removed from favorites") info)
    (fun _ => showToast "❌ Failed to update favorite" error).

(** *** Delete, after confirmation *)

Definition askDelete (i : Id) : prog unit := update (setConfirmId (Some i)).

(** The [Cancel] button and the overlay of the confirmation dialog. *)
Definition cancelDelete : prog unit := update (setConfirmId None).

(** [prev.filter((b) => b.id !== id)] *)
Definition removeById (i : Id) (prev : list Book.t) : list Book.t :=
  List.filter (fun b => negb (Id_eqb (Book.id b) i)) prev.

(** The handler closes over [confirmId] of the render [st]. *)
Definition doDelete (st : state) : prog unit :=
  match confirmId st with
  | None => ret tt                           (* !null *)
  | Some i =>
      if negb (Id_truthy i) then ret tt
      else
        prog_finally
          (catch
             (apiDel i ;;
              update (setBooks (removeById i)) ;;
              showToast "🗑️ Book deleted" success)
             (fun _ => showToast "❌ Delete failed" error))
          (update (setConfirmId None))
  end.

(** The confirmation dialog is rendered under [confirmId && ...]. *)
Definition confirmShown (st : state) : bool :=
  match confirmId st with
  | None => false
  | Some i => Id_truthy i
  end.

(** ** Operations, events and reachable states *)

(** The user-initiated operations of the command layer.  [Save] is a
    create when no record is being edited and an update otherwise. *)
Inductive operation : Type :=
| Save
| ToggleFavorite (book : Book.t)
| Delete.

Definition handler (op : operation) (st : state) : prog unit :=
  match op with
  | Save => saveBook st
  | ToggleFavorite book => toggleFav book
  | Delete => doDelete st
  end.

(** Everything that can happen to the mounted component: the mount
    effect, the form and toolbar inputs, and the operations. *)
Inductive event : Type :=
| Mount
| OpenCreate
| OpenEdit (book : Book.t)
| CloseModal
| EditForm (f : Form.t -> Form.t)
| Search (text : string)
| FlipOnlyFav
| AskDelete (i : Id)
| CancelDelete
| Run (op : operation).

Definition react (ev : event) (st : state) : prog unit :=
  match ev with
  | Mount => initialLoad
  | OpenCreate => openCreate
  | OpenEdit book => openEdit book
  | CloseModal => closeModal
  | EditForm f => update (setForm f)
  | Search text => update (setQ text)
  | FlipOnlyFav => update (setOnlyFav negb)
  | AskDelete i => askDelete i
  | CancelDelete => cancelDelete
  | Run op => handler op st
  end.

Definition ids (l : list Book.t) : list Id := List.map Book.id l.

(** A condition on the reply [x] to the call [r], taken when it
    arrives at a client whose store is [store], under which the
    identifiers of the store stay distinct: a listing has no repeated
    identifier, a created record has an identifier that the store does
    not hold at that moment, a replaced record keeps the identifier of
    the call.  The second part is a condition on the arrival, not a
    rule that a server can follow on its own; see [serves] for the
    server. *)
Definition allowed {R : Type} (r : request R) : reply R -> list Book.t -> Prop :=
  match r in request T return reply T -> list Book.t -> Prop with
  | GET => fun x _ =>
      match x with
      | HttpOk (JArray l) => NoDup (ids l)
      | _ => True
      end
  | POST _ => fun x store =>
      match x with
      | HttpOk created => ~ In (Book.id created) (ids store)
      | _ => True
      end
  | PUT i _ => fun x _ =>
      match x with
      | HttpOk updated => Book.id updated = i
      | _ => True
      end
  | DELETE _ => fun _ _ => True
  end.

Definition id_rules (srv : server) (store : list Book.t) : Prop :=
  forall R (r : request R), allowed r (srv R r) store.

(** States reached from the first render by events that run one after
    the other, each against a server that respects the identifier
    rules. *)
Inductive reachable : state -> Prop :=
| reachable_init : reachable init
| reachable_step (st : state) (ev : event) (srv : server) :
    reachable st ->
    id_rules srv (books st) ->
    reachable (final (exec srv (react ev st) st)).

(** *** Handlers in flight

    Nothing serialises the handlers: a second one may start while the
    first awaits its reply, and replies are applied in the order in
    which they arrive. *)

(** A handler suspended at an [await]. *)
Inductive task : Type :=
| Suspended {R : Type} (r : request R) (k : reply R -> prog unit).

(** Runs a handler up to its next [await]. *)
Fixpoint advance (p : prog unit) (st : state) : state * option task :=
  match p with
  | Ret _ => (st, None)
  | Throw => (st, None)
  | SetState f k => advance k (f st)
  | Await r k => (st, Some (Suspended r k))
  end.

Definition spawn (t : option task) : list task :=
  match t with
  | Some t => [t]
  | None => []
  end.

(** The component state together with the handlers in flight. *)
Definition config : Type := (state * list task)%type.

(** Configurations reached from the first render: an event starts a
    handler, which runs up to its [await]; the reply to any handler in
    flight may arrive next, and resumes it. *)
Inductive running : config -> Prop :=
| running_init : running (init, [])
| running_event (st : state) (ts : list task) (ev : event) :
    running (st, ts) ->
    running (fst (advance (react ev st) st),
             (ts ++ spawn (snd (advance (react ev st) st)))%list)
| running_reply (st : state) (ts1 ts2 : list task)
                {R : Type} (r : request R) (k : reply R -> prog unit) (x : reply R) :
    running (st, (ts1 ++ Suspended r k :: ts2)%list) ->
    allowed r x (books st) ->
    running (fst (advance (k x) st),
             (ts1 ++ ts2 ++ spawn (snd (advance (k x) st)))%list).

(** A suspended handler that finishes on its reply without a further
    [await], and that keeps the identifiers of the store distinct when
    the reply is an allowed one. *)
Definition settles (t : task) : Prop :=
  match t with
  | Suspended r k =>
      (forall x st, snd (advance (k x) st) = None) /\
      (forall x st,
         allowed r x (books st) ->
         NoDup (ids (books st)) ->
         NoDup (ids (books (fst (advance (k x) st)))))
  end.

(** ** The view projection, in the words of the specification *)

(** [sub] occurs in [s]. *)
Definition substring (sub s : string) : Prop :=
  exists pre post : string, s = (pre ++ sub ++ post)%string.

(** A record is shown when [favoritesOnly] implies that it is a
    favourite and the trimmed, lowercased query occurs in its lowercased
    title. *)
Definition visible (st : state) (b : Book.t) : Prop :=
  (onlyFav st = true -> Book.isFavorite b = true) /\
  substring (JS.toLowerCase (JS.trim (q st))) (JS.toLowerCase (Book.title b)).

Definition visibleb (st : state) (b : Book.t) : bool :=
  implb (onlyFav st) (Book.isFavorite b)
  && JS.includes (JS.toLowerCase (Book.title b)) (JS.toLowerCase (JS.trim (q st))).

Definition projection (st : state) : list Book.t :=
  List.filter (visibleb st) (books st).

(** [l] is [m] with some elements left out, the others in order. *)
Inductive subsequence {A : Type} : list A -> list A -> Prop :=
| subsequence_nil : subsequence [] []
| subsequence_skip x l m : subsequence l m -> subsequence l (x :: m)
| subsequence_keep x l m : subsequence l m -> subsequence (x :: l) (x :: m).

(** A server that answers the PUT of a record with that record. *)
Definition echoes (srv : server) : Prop :=
  forall data, srv _ (PUT (Book.id data) data) = HttpOk data.

(** A create is confirmed when the reply carries the submitted fields. *)
Definition confirms (created : Book.t) (data : Body.t) : Prop :=
  Book.title created = Body.title data /\
  Book.author created = Body.author data /\
  Book.coverImage created = Body.coverImage data /\
  Book.description created = Body.description data /\
  Book.rating created = Body.rating data /\
  Book.isFavorite created = Body.isFavorite data.

(** [b] and [c] agree on every field but [isFavorite]. *)
Definition same_but_favorite (b c : Book.t) : Prop :=
  Book.id b = Book.id c /\
  Book.title b = Book.title c /\
  Book.author b = Book.author c /\
  Book.coverImage b = Book.coverImage c /\
  Book.description b = Book.description c /\
  Book.rating b = Book.rating c.

(** ** The command layer, in the words of the specification *)

(** [x] clamped to the interval from [lo] to [hi]. *)
Definition clamp (lo hi x : Z) : Z :=
  if x <? lo then lo else if hi <? x then hi else x.

(** The record that a create submits for the draft [d]: trimmed texts,
    clamped rating, the placeholder for a blank cover, not a favourite. *)
Definition submitted (d : Form.t) : Body.t :=
  Body.mk (JS.trim (Form.title d))
          (JS.trim (Form.author d))
          (if String.eqb (JS.trim (Form.coverImage d)) ""
           then placeholder
           else JS.trim (Form.coverImage d))
          (JS.trim (Form.description d))
          (clamp 0 5 (Form.rating d))
          false.

(** How the store [next] relates to the store [prev] once the confirmed
    record [updated] has been applied: same positions; a record with the
    identifier of [updated] is overwritten by it, any other is kept; and
    when no record has that identifier the store is as before. *)
Definition reconciled
  (prev : list Book.t) (updated : Book.t) (next : list Book.t) : Prop :=
  List.length next = List.length prev /\
  (forall n b, nth_error prev n = Some b ->
     (Book.id b = Book.id updated -> nth_error next n = Some updated) /\
     (Book.id b <> Book.id updated -> nth_error next n = Some b)) /\
  ((forall b, In b prev -> Book.id b <> Book.id updated) -> next = prev).

(** ** Sample data

    The store of the specification's scenario, and three servers. *)

Definition dune : Book.t :=
  Book.mk (IdNum 1) "Dune" "Herbert" "" "" 4 false.

Definition emma : Book.t :=
  Book.mk (IdNum 2) "Emma" "Austen" placeholder "" 5 true.

Definition shelf : state :=
  setLoading false (setBooks (fun _ => [dune]) init).

(** Answers a PUT with the record sent under the identifier of the
    call, a POST with the body under the identifier ["7"], a GET with
    the one-record listing. *)
Definition echo_server : server :=
  fun R r =>
    match r in request T return reply T with
    | GET => HttpOk (JArray [dune])
    | POST d =>
        HttpOk (Book.mk (IdStr "7") (Body.title d) (Body.author d)
                        (Body.coverImage d) (Body.description d)
                        (Body.rating d) (Body.isFavorite d))
    | PUT i d =>
        HttpOk (Book.mk i (Book.title d) (Book.author d)
                        (Book.coverImage d) (Book.description d)
                        (Book.rating d) (Book.isFavorite d))
    | DELETE _ => HttpOk tt
    end.

(** A draft whose cover address is typed with blanks around it. *)
Definition spaced_draft : Form.t :=
  Form.mk "Emma" "Austen" " https://covers.test/emma.png " "" 9.

(** Answers every call with a status that is not a success. *)
Definition failing_server : server := fun _ _ => HttpError.

(** Answers a GET with a JSON body that is not an array. *)
Definition odd_server : server :=
  fun R r =>
    match r in request T return reply T with
    | GET => HttpOk JOther
    | _ => HttpError
    end.

(** ** Presentation

    The values that the components compute from their props, and the
    handlers that the rendered controls are wired to. *)

From Stdlib Require Import DecimalString.

(** [`${n}`] for an integer [n]. *)
Definition toString (n : Z) : string := NilZero.string_of_int (Z.to_int n).

Module StarRating.

(** [v] of the component, for its prop [value]. *)
Definition v (value : Z) : Z :=
  Z.max 0 (Z.min 5 (JS.Number (JS.or_num value 0))).

(** [star = i + 1] for the five buttons. *)
Definition stars : list Z := List.map (fun i => i + 1) [0; 1; 2; 3; 4].

Definition active (value star : Z) : bool := star <=? v value.

Definition hint (value : Z) : string :=
  if v value =? 0 then "No rating" else (toString (v value) ++ "/5")%string.

End StarRating.

(** The [value] prop that [App] passes to [StarRating]. *)
Definition ratingValue (st : state) : Z :=
  JS.Number (JS.or_num (Form.rating (form st)) 0).

(** The [onChange] prop that [App] passes to [StarRating]; a star button
    calls it with its [star], the clear button with [0]. *)
Definition setRating (x : Z) : prog unit :=
  update (setForm (fun p =>
    Form.mk (Form.title p) (Form.author p) (Form.coverImage p)
            (Form.description p) x)).

(** The [onClose] prop that [App] passes to [Toast]. *)
Definition hideToast : prog unit :=
  update (fun s => setToast (mkToast false (msg (toast s)) (type (toast s))) s).

Module BookCard.

Definition cover (book : Book.t) : string :=
  JS.or_str (Book.coverImage book) placeholder.

Definition rating (book : Book.t) : Z :=
  Z.max 0 (Z.min 5 (JS.Number (JS.or_num (Book.rating book) 0))).

(** The star of index [i] is lit when [i < rating]. *)
Definition starsLine (book : Book.t) : list bool :=
  List.map (fun i => i <? rating book) [0; 1; 2; 3; 4].

Definition ratingPill (book : Book.t) : string :=
  if rating book =? 0 then "No rating"
  else (toString (rating book) ++ "/5")%string.

Definition description (book : Book.t) : string :=
  if JS.truthy_str (Book.description book) then Book.description book
  else "No description".

Definition favPill (book : Book.t) : string :=
  if Book.isFavorite book then "Favorite" else "Book".

End BookCard.

(** What [App] renders below the toolbar. *)
Inductive screen : Type :=
| Loader
| EmptyCard (text : string)
| Grid (cards : list Book.t).

Definition mainView (st : state) : screen :=
  if loading st then Loader
  else if Nat.eqb (List.length (filtered st)) 0 then
    EmptyCard (if onlyFav st
               then "No favorites yet. Add some hearts ♥"
               else "Try adding a book or changing the search.")
  else Grid (filtered st).

(** The editor is rendered under [isModalOpen]; its title and its save
    button follow [editing]. *)
Definition modalTitle (st : state) : string :=
  match editing st with Some _ => "Edit Book" | None => "Add Book" end.

Definition saveLabel (st : state) : string :=
  match editing st with Some _ => "Save Changes" | None => "Add Book" end.

(** ** Properties of requests and records *)

(** A call is addressed when a PUT names the record it carries and a
    DELETE names a truthy identifier. *)
Definition addressed (c : call) : Prop :=
  match c with
  | @Call _ r =>
      match r with
      | GET => True
      | POST _ => True
      | PUT i data => Book.id data = i
      | DELETE i => Id_truthy i = true
      end
  end.

(** The texts and the rating that a save may send. *)
Definition presentable
  (title author coverImage description : string) (rating : Z) : Prop :=
  title <> "" /\ JS.trim title = title /\
  author <> "" /\ JS.trim author = author /\
  coverImage <> "" /\ JS.trim coverImage = coverImage /\
  JS.trim description = description /\
  0 <= rating <= 5.

(** A call of [saveBook] carries presentable fields. *)
Definition validated (c : call) : Prop :=
  match c with
  | @Call _ r =>
      match r with
      | POST d =>
          presentable (Body.title d) (Body.author d) (Body.coverImage d)
                      (Body.description d) (Body.rating d)
          /\ Body.isFavorite d = false
      | PUT _ d =>
          presentable (Book.title d) (Book.author d) (Book.coverImage d)
                      (Book.description d) (Book.rating d)
      | _ => False
      end
  end.

(** A stored record whose fields are presentable. *)
Definition normalised (b : Book.t) : Prop :=
  presentable (Book.title b) (Book.author b) (Book.coverImage b)
              (Book.description b) (Book.rating b).

(** The call [c] is refused by the server [srv]. *)
Definition refused (srv : server) (c : call) : bool :=
  match c with
  | @Call R r => fails (srv R r)
  end.

(** A suspended handler that leaves the store alone when its reply is a
    failure. *)
Definition idle_on_failure (t : task) : Prop :=
  match t with
  | Suspended r k =>
      forall x st, fails x = true -> books (fst (advance (k x) st)) = books st
  end.

(** [1] for [true], [0] for [false]. *)
Definition b2n (b : bool) : nat := if b then 1%nat else 0%nat.

(** Two replies that a handler cannot tell apart: the same JSON body,
    or two failures of whatever kind. *)
Definition alike {R : Type} (x y : reply R) : Prop :=
  match x, y with
  | HttpOk a, HttpOk b => a = b
  | HttpOk _, _ => False
  | _, HttpOk _ => False
  | _, _ => True
  end.

(** The number of lit entries of a row of stars. *)
Definition lit (row : list bool) : nat := List.length (List.filter (fun x => x) row).

(** ** The remote resource as a server

    The server holds the collection and remembers the identifiers it
    has issued.  It answers a listing with its collection, gives a
    created record an identifier it has never issued, and keeps the
    identifier of a record it replaces. *)

Record remote : Type := mkRemote {
  collection : list Book.t;
  issued : list Id
}.

(** The collection has no repeated identifier, and all of its
    identifiers were issued by the server. *)
Definition sound (sigma : remote) : Prop :=
  NoDup (ids (collection sigma)) /\ incl (ids (collection sigma)) (issued sigma).

(** The server accepts the call [r]: its answer and its next state. *)
Definition handles (sigma : remote) {R : Type} (r : request R)
  : reply R -> remote -> Prop :=
  match r in request T return reply T -> remote -> Prop with
  | GET => fun x sigma' =>
      x = HttpOk (JArray (collection sigma)) /\ sigma' = sigma
  | POST data => fun x sigma' =>
      exists created,
        x = HttpOk created /\
        confirms created data /\
        ~ In (Book.id created) (issued sigma) /\
        sigma' = mkRemote (collection sigma ++ [created])%list
                          (Book.id created :: issued sigma)
  | PUT i _ => fun x sigma' =>
      exists updated,
        x = HttpOk updated /\
        Book.id updated = i /\
        sigma' = mkRemote (replaceById updated (collection sigma)) (issued sigma)
  | DELETE i => fun x sigma' =>
      x = HttpOk tt /\
      sigma' = mkRemote (removeById i (collection sigma)) (issued sigma)
  end.

(** What can come back from a call: the answer of the server; a status
    that is not a success, the server having done nothing; or a network
    failure, before the call reached the server or after the server
    accepted it. *)
Definition serves (sigma : remote) {R : Type} (r : request R)
  (x : reply R) (sigma' : remote) : Prop :=
  handles sigma r x sigma' \/
  (x = HttpError /\ sigma' = sigma) \/
  (x = NetworkFailure /\ (sigma' = sigma \/ exists y, handles sigma r y sigma')).

(** What the reply [x] to the call [r] makes of the store. *)
Definition reconcile {R : Type} (r : request R)
  : reply R -> list Book.t -> list Book.t :=
  match r in request T return reply T -> list Book.t -> list Book.t with
  | GET => fun x store =>
      match x with
      | HttpOk (JArray l) => l
      | HttpOk JOther => []
      | _ => store
      end
  | POST _ => fun x store =>
      match x with
      | HttpOk created => (store ++ [created])%list
      | _ => store
      end
  | PUT _ _ => fun x store =>
      match x with
      | HttpOk updated => replaceById updated store
      | _ => store
      end
  | DELETE i => fun x store =>
      match x with
      | HttpOk _ => removeById i store
      | _ => store
      end
  end.

(** A suspended handler that finishes on its reply without a further
    [await] and makes of the store what [reconcile] says. *)
Definition reconciles (t : task) : Prop :=
  match t with
  | Suspended r k =>
      forall x st,
        snd (advance (k x) st) = None /\
        books (fst (advance (k x) st)) = reconcile r x (books st)
  end.

(** *** One operation at a time

    The handler started by an event runs to its end, its call served by
    the server, before the next event. *)

Definition settle (sigma : remote) (p : state * option task)
  (st' : state) (sigma' : remote) : Prop :=
  match p with
  | (s, None) => st' = s /\ sigma' = sigma
  | (s, Some (Suspended r k)) =>
      exists x, serves sigma r x sigma' /\ st' = fst (advance (k x) s)
  end.

Inductive sequential : state -> remote -> Prop :=
| sequential_init (sigma : remote) : sound sigma -> sequential init sigma
| sequential_step (st : state) (sigma : remote) (ev : event)
                  (st' : state) (sigma' : remote) :
    sequential st sigma ->
    settle sigma (advance (react ev st) st) st' sigma' ->
    sequential st' sigma'.

(** *** Operations that overlap

    A call is sent, later served, and its reply delivered later still;
    other events, other calls and other replies may come in between. *)

Inductive flight : Type :=
| Sent (t : task)
| Answered {R : Type} (k : reply R -> prog unit) (x : reply R).

Definition sent (t : option task) : list flight :=
  match t with
  | Some t => [Sent t]
  | None => []
  end.

Inductive overlapping : state -> list flight -> remote -> Prop :=
| overlapping_init (sigma : remote) : sound sigma -> overlapping init [] sigma
| overlapping_event (st : state) (fs : list flight) (sigma : remote) (ev : event) :
    overlapping st fs sigma ->
    overlapping (fst (advance (react ev st) st))
                (fs ++ sent (snd (advance (react ev st) st)))%list
                sigma
| overlapping_serve (st : state) (fs1 fs2 : list flight) (sigma : remote)
                    {R : Type} (r : request R) (k : reply R -> prog unit)
                    (x : reply R) (sigma' : remote) :
    overlapping st (fs1 ++ Sent (Suspended r k) :: fs2)%list sigma ->
    serves sigma r x sigma' ->
    overlapping st (fs1 ++ Answered k x :: fs2)%list sigma'
| overlapping_deliver (st : state) (fs1 fs2 : list flight) (sigma : remote)
                      {R : Type} (k : reply R -> prog unit) (x : reply R) :
    overlapping st (fs1 ++ Answered k x :: fs2)%list sigma ->
    overlapping (fst (advance (k x) st))
                (fs1 ++ fs2 ++ sent (snd (advance (k x) st)))%list
                sigma.



(** ** White space and case, in the words of the specification *)

(** [l] is made of sequences of [W], one after the other. *)
Inductive madeOf (W : list (list ascii)) : list ascii -> Prop :=
| madeOf_nil : madeOf W []
| madeOf_cons (w l : list ascii) : In w W -> madeOf W l -> madeOf W (w ++ l)%list.

(** A text that consists of white space characters only. *)
Inductive blank : string -> Prop :=
| blank_empty : blank ""
| blank_more (w s : string) :
    In w JS.whiteSpaceChars -> blank s -> blank (w ++ s)%string.

(** [t] is [s] without the white space around it: what was removed on
    either side is blank, and what is left neither begins nor ends with
    a white space character. *)
Definition trims (s t : string) : Prop :=
  (exists pre post, s = (pre ++ t ++ post)%string /\ blank pre /\ blank post) /\
  (forall w u, In w JS.whiteSpaceChars ->
               t <> (w ++ u)%string /\ t <> (u ++ w)%string).

(** A text of ASCII characters. *)
Definition asciiOnly (s : string) : Prop :=
  Forall (fun c => (N_of_ascii c < 0x80)%N) (list_ascii_of_string s).

(** The letters A-Z replaced by a-z, byte by byte. *)
Fixpoint asciiLower (s : string) : string :=
  match s with
  | EmptyString => EmptyString
  | String c s' =>
      String (if ((0x41 <=? N_of_ascii c) && (N_of_ascii c <=? 0x5A))%N
              then ascii_of_N (N_of_ascii c + 0x20)
              else c)
             (asciiLower s')
  end.

(** [JS.trim] on the bytes of the text. *)
Definition trimBytes (l : list ascii) : list ascii :=
  List.rev (JS.strip (List.map (@List.rev ascii) JS.whiteSpaceBytes)
                     (List.rev (JS.strip JS.whiteSpaceBytes l))).

(** ** Facts about the primitives *)

Section Strings.

Lemma prefix_app (p s : string) :
  String.prefix p s = true <-> exists post, s = (p ++ post)%string.
Proof.
  revert s. induction p as [|c p IH]; intros s; simpl.
  - split; [intros _; exists s; reflexivity | destruct s; reflexivity].
  - destruct s as [|d s].
    + split; [discriminate | intros [post H]; discriminate].
    + simpl. destruct (ascii_dec c d) as [->|Hne].
      * rewrite IH. split; intros [post H]; exists post; congruence.
      * split; [discriminate | intros [post H]; congruence].
Qed.

Lemma includes_unfold (s sub : string) :
  JS.includes s sub =
  String.prefix sub s
  || match s with
     | EmptyString => false
     | String _ s' => JS.includes s' sub
     end.
Proof. destruct s; reflexivity. Qed.

Lemma includes_substring (s sub : string) :
  JS.includes s sub = true <-> substring sub s.
Proof.
  unfold substring. induction s as [|c s IH]; rewrite includes_unfold.
  - rewrite orb_false_r, prefix_app. split.
    + intros [post H]. exists EmptyString, post. exact H.
    + intros [[|d pre] [post H]]; simpl in H; [exists post; exact H | discriminate].
  - rewrite orb_true_iff, prefix_app, IH. split.
    + intros [[post H] | [pre [post H]]].
      * exists EmptyString, post. exact H.
      * exists (String c pre), post. simpl. congruence.
    + intros [[|d pre] [post H]]; simpl in H.
      * left. exists post. exact H.
      * right. exists pre, post. congruence.
Qed.

Lemma includes_empty (s : string) : JS.includes s "" = true.
Proof. destruct s; reflexivity. Qed.

Lemma truthy_str_false (s : string) : JS.truthy_str s = false <-> s = "".
Proof. destruct s; simpl; split; congruence. Qed.

Lemma or_str_empty (s : string) : JS.or_str s "" = s.
Proof. destruct s; reflexivity. Qed.

Lemma or_num_zero (n : Z) : JS.or_num n 0 = n.
Proof.
  unfold JS.or_num, JS.truthy_num. destruct (Z.eqb_spec n 0); simpl; congruence.
Qed.

End Strings.

Lemma Id_eqb_eq (a b : Id) : Id_eqb a b = true <-> a = b.
Proof.
  destruct a, b; simpl; try (split; congruence).
  - rewrite String.eqb_eq. split; congruence.
  - rewrite Z.eqb_eq. split; congruence.
Qed.

Lemma Id_eqb_refl (a : Id) : Id_eqb a a = true.
Proof. apply Id_eqb_eq. reflexivity. Qed.

Lemma Id_eqb_neq (a b : Id) : Id_eqb a b = false <-> a <> b.
Proof.
  rewrite <- Id_eqb_eq. destruct (Id_eqb a b); split; congruence.
Qed.

(** ** Trimming and lowercase *)

Lemma append_assoc (a b c : string) :
  ((a ++ b) ++ c)%string = (a ++ b ++ c)%string.
Proof. induction a as [|x a IH]; simpl; [reflexivity|]. rewrite IH. reflexivity. Qed.

(** *** Removing sequences from the beginning *)

Lemma startsWith_app (w l : list ascii) :
  JS.startsWith w l = true <-> exists t, l = (w ++ t)%list.
Proof.
  revert l. induction w as [|a w IH]; intros l; simpl.
  - split; [intros _; exists l; reflexivity | reflexivity].
  - destruct l as [|b l].
    + split; [discriminate | intros [t H]; discriminate].
    + rewrite andb_true_iff, Ascii.eqb_eq, IH. split.
      * intros [-> [t ->]]. exists t. reflexivity.
      * intros [t H]. injection H as -> ->. split; [reflexivity|]. exists t. reflexivity.
Qed.

Lemma startsWith_skipn (w l : list ascii) :
  JS.startsWith w l = true -> l = (w ++ List.skipn (List.length w) l)%list.
Proof.
  intros H. apply startsWith_app in H. destruct H as [t ->].
  rewrite skipn_app, Nat.sub_diag, skipn_all. reflexivity.
Qed.

Lemma startsWith_longer (w x p : list ascii) :
  JS.startsWith w x = true -> JS.startsWith w (x ++ p) = true.
Proof.
  rewrite !startsWith_app. intros [t ->]. exists (t ++ p)%list.
  rewrite app_assoc. reflexivity.
Qed.

(** Two beginnings of one list: one is the beginning of the other. *)
Lemma startsWith_comparable (w w' t t' : list ascii) :
  (w ++ t = w' ++ t')%list ->
  JS.startsWith w w' = true \/ JS.startsWith w' w = true.
Proof.
  revert w'. induction w as [|a w IH]; intros [|b w'] H; simpl; auto.
  simpl in H. injection H as -> H. rewrite Ascii.eqb_refl. simpl. apply IH. exact H.
Qed.

Section Stripping.

Variable W : list (list ascii).
Hypothesis W_nonempty : forall w, In w W -> w <> [].

Lemma stripOne_Some (l l' : list ascii) :
  JS.stripOne W l = Some l' -> exists w, In w W /\ l = (w ++ l')%list.
Proof.
  unfold JS.stripOne. destruct (List.find _ W) as [w|] eqn:E; [|discriminate].
  intros [= <-]. apply find_some in E. destruct E as [Hin Hs].
  exists w. split; [exact Hin | apply startsWith_skipn; exact Hs].
Qed.

Lemma stripOne_None (l : list ascii) :
  JS.stripOne W l = None -> forall w, In w W -> JS.startsWith w l = false.
Proof.
  unfold JS.stripOne. destruct (List.find _ W) as [w|] eqn:E; [discriminate|].
  intros _ w Hin. exact (find_none _ _ E w Hin).
Qed.

Lemma stripOne_None_intro (l : list ascii) :
  (forall w, In w W -> JS.startsWith w l = false) -> JS.stripOne W l = None.
Proof.
  intros H. unfold JS.stripOne. destruct (List.find _ W) as [w|] eqn:E; [|reflexivity].
  apply find_some in E. destruct E as [Hin Hs]. rewrite (H w Hin) in Hs. discriminate.
Qed.

Lemma stripN_split (fuel : nat) (l : list ascii) :
  exists pre, madeOf W pre /\ l = (pre ++ JS.stripN W fuel l)%list.
Proof.
  revert l. induction fuel as [|fuel IH]; intros l; simpl.
  - exists []. split; [constructor | reflexivity].
  - destruct (JS.stripOne W l) as [l'|] eqn:E.
    + destruct (stripOne_Some _ _ E) as [w [Hin ->]].
      destruct (IH l') as [pre [Hpre Hl']].
      exists (w ++ pre)%list. split; [constructor; assumption|].
      rewrite <- app_assoc, <- Hl'. reflexivity.
    + exists []. split; [constructor | reflexivity].
Qed.

Lemma stripN_clean (fuel : nat) (l : list ascii) :
  (List.length l <= fuel)%nat -> JS.stripOne W (JS.stripN W fuel l) = None.
Proof.
  revert l. induction fuel as [|fuel IH]; intros l Hlen; simpl.
  - destruct l; [|simpl in Hlen; lia].
    apply stripOne_None_intro. intros w Hin.
    destruct w; [exfalso; exact (W_nonempty _ Hin eq_refl) | reflexivity].
  - destruct (JS.stripOne W l) as [l'|] eqn:E; [|exact E].
    apply IH. destruct (stripOne_Some _ _ E) as [w [Hin ->]].
    rewrite length_app in Hlen. pose proof (W_nonempty _ Hin).
    destruct w; [congruence | simpl in Hlen; lia].
Qed.

Lemma strip_split (l : list ascii) :
  exists pre, madeOf W pre /\ l = (pre ++ JS.strip W l)%list.
Proof. apply stripN_split. Qed.

Lemma strip_clean (l : list ascii) : JS.stripOne W (JS.strip W l) = None.
Proof. apply stripN_clean. apply Nat.le_refl. Qed.

Lemma strip_fixed (l : list ascii) : JS.stripOne W l = None -> JS.strip W l = l.
Proof.
  intros H. unfold JS.strip. destruct (List.length l); simpl; [reflexivity|].
  rewrite H. reflexivity.
Qed.

Lemma madeOf_app (x y : list ascii) : madeOf W x -> madeOf W y -> madeOf W (x ++ y).
Proof.
  induction 1 as [|w l Hin Hl IH]; intros Hy; [exact Hy|].
  rewrite <- app_assoc. constructor; [exact Hin | apply IH; exact Hy].
Qed.

(** No sequence of [W] is the beginning of another one. *)
Hypothesis W_free :
  forall w w', In w W -> In w' W -> JS.startsWith w w' = true -> w = w'.

Lemma stripN_madeOf (l : list ascii) :
  madeOf W l -> forall fuel, (List.length l <= fuel)%nat -> JS.stripN W fuel l = [].
Proof.
  induction 1 as [|w l Hin Hl IH]; intros fuel Hlen.
  - destruct fuel; simpl; [reflexivity|].
    rewrite stripOne_None_intro; [reflexivity|]. intros w Hin.
    destruct w; [exfalso; exact (W_nonempty _ Hin eq_refl) | reflexivity].
  - pose proof (W_nonempty _ Hin) as Hne. rewrite length_app in Hlen.
    destruct fuel as [|fuel]; [destruct w; [congruence | simpl in Hlen; lia]|].
    simpl. destruct (JS.stripOne W (w ++ l)) as [l'|] eqn:E.
    + destruct (stripOne_Some _ _ E) as [w' [Hin' Heq]].
      assert (w = w').
      { destruct (startsWith_comparable _ _ _ _ Heq) as [H|H].
        - apply W_free; assumption.
        - symmetry. apply W_free; assumption. }
      subst w'. apply app_inv_head in Heq. subst l'.
      apply IH. destruct w; [congruence | simpl in Hlen; lia].
    + pose proof (stripOne_None _ E w Hin) as H.
      assert (JS.startsWith w (w ++ l) = true)
        by (apply startsWith_app; exists l; reflexivity).
      congruence.
Qed.

Lemma strip_madeOf (l : list ascii) : madeOf W l -> JS.strip W l = [].
Proof. intros H. apply stripN_madeOf; [exact H | apply Nat.le_refl]. Qed.

End Stripping.

Lemma madeOf_rev (W : list (list ascii)) (x : list ascii) :
  madeOf (List.map (@List.rev ascii) W) x -> madeOf W (List.rev x).
Proof.
  induction 1 as [|w l Hin Hl IH]; [constructor|].
  rewrite rev_app_distr. apply madeOf_app; [exact IH|].
  apply in_map_iff in Hin. destruct Hin as [w0 [<- Hin]].
  rewrite rev_involutive. rewrite <- (app_nil_r w0). constructor; [exact Hin | constructor].
Qed.

Lemma madeOf_rev_inv (W : list (list ascii)) (x : list ascii) :
  madeOf W x -> madeOf (List.map (@List.rev ascii) W) (List.rev x).
Proof.
  induction 1 as [|w l Hin Hl IH]; [constructor|].
  rewrite rev_app_distr. apply madeOf_app; [exact IH|].
  rewrite <- (app_nil_r (List.rev w)). constructor; [|constructor].
  apply in_map. exact Hin.
Qed.

(** *** The white space of ECMA-262 *)

Lemma checked_nonempty (W : list (list ascii)) :
  forallb (fun w => negb (Nat.eqb (List.length w) 0)) W = true ->
  forall w, In w W -> w <> [].
Proof.
  intros H w Hin ->. rewrite forallb_forall in H. specialize (H _ Hin). discriminate.
Qed.

Lemma checked_free (W : list (list ascii)) :
  forallb (fun w =>
    forallb (fun w' =>
      implb (JS.startsWith w w')
            (if list_eq_dec ascii_dec w w' then true else false)) W) W = true ->
  forall w w', In w W -> In w' W -> JS.startsWith w w' = true -> w = w'.
Proof.
  intros H w w' Hin Hin' Hs. rewrite forallb_forall in H.
  specialize (H _ Hin). rewrite forallb_forall in H. specialize (H _ Hin').
  rewrite Hs in H. simpl in H.
  destruct (list_eq_dec ascii_dec w w'); [assumption | discriminate].
Qed.

Lemma front_nonempty : forall w, In w JS.whiteSpaceBytes -> w <> [].
Proof. apply checked_nonempty. reflexivity. Qed.

Lemma front_free :
  forall w w', In w JS.whiteSpaceBytes -> In w' JS.whiteSpaceBytes ->
               JS.startsWith w w' = true -> w = w'.
Proof. apply checked_free. reflexivity. Qed.

Lemma back_nonempty :
  forall w, In w (List.map (@List.rev ascii) JS.whiteSpaceBytes) -> w <> [].
Proof. apply checked_nonempty. reflexivity. Qed.

Lemma back_free :
  forall w w', In w (List.map (@List.rev ascii) JS.whiteSpaceBytes) ->
               In w' (List.map (@List.rev ascii) JS.whiteSpaceBytes) ->
               JS.startsWith w w' = true -> w = w'.
Proof. apply checked_free. reflexivity. Qed.

(** *** Trimming *)

Lemma trim_bytes (s : string) :
  JS.trim s = string_of_list_ascii (trimBytes (list_ascii_of_string s)).
Proof.
  unfold JS.trim, JS.trimEnd, JS.trimStart, trimBytes.
  rewrite list_ascii_of_string_of_list_ascii. reflexivity.
Qed.

Lemma trimBytes_split (l : list ascii) :
  exists pre post,
    l = (pre ++ trimBytes l ++ post)%list /\
    madeOf JS.whiteSpaceBytes pre /\ madeOf JS.whiteSpaceBytes post.
Proof.
  unfold trimBytes.
  destruct (strip_split JS.whiteSpaceBytes l) as [pre [Hpre Hl]].
  destruct (strip_split (List.map (@List.rev ascii) JS.whiteSpaceBytes)
              (List.rev (JS.strip JS.whiteSpaceBytes l))) as [post [Hpost Hr]].
  exists pre, (List.rev post). split; [|split; [exact Hpre | apply madeOf_rev; exact Hpost]].
  rewrite <- rev_app_distr, <- Hr, rev_involutive. exact Hl.
Qed.

Lemma trimBytes_clean_back (l : list ascii) :
  JS.stripOne (List.map (@List.rev ascii) JS.whiteSpaceBytes)
              (List.rev (trimBytes l)) = None.
Proof.
  unfold trimBytes. rewrite rev_involutive. apply strip_clean, back_nonempty.
Qed.

Lemma trimBytes_clean_front (l : list ascii) :
  JS.stripOne JS.whiteSpaceBytes (trimBytes l) = None.
Proof.
  apply stripOne_None_intro. intros w Hin.
  destruct (JS.startsWith w (trimBytes l)) eqn:E; [|reflexivity].
  unfold trimBytes in E.
  destruct (strip_split (List.map (@List.rev ascii) JS.whiteSpaceBytes)
              (List.rev (JS.strip JS.whiteSpaceBytes l))) as [post [_ Hr]].
  apply (f_equal (@List.rev ascii)) in Hr.
  rewrite rev_involutive, rev_app_distr in Hr.
  apply (startsWith_longer _ _ (List.rev post)) in E. rewrite <- Hr in E.
  rewrite (stripOne_None _ _ (strip_clean _ front_nonempty l) w Hin) in E.
  discriminate.
Qed.

Lemma trimBytes_idem (l : list ascii) : trimBytes (trimBytes l) = trimBytes l.
Proof.
  unfold trimBytes at 1.
  rewrite (strip_fixed _ _ (trimBytes_clean_front l)).
  rewrite (strip_fixed _ _ (trimBytes_clean_back l)).
  apply rev_involutive.
Qed.

Lemma trimBytes_nil_iff (l : list ascii) :
  trimBytes l = [] <-> madeOf JS.whiteSpaceBytes l.
Proof.
  split.
  - intros H. destruct (trimBytes_split l) as (pre & post & Hl & Hpre & Hpost).
    rewrite H in Hl. rewrite Hl. apply madeOf_app; assumption.
  - intros H. unfold trimBytes.
    rewrite (strip_madeOf _ front_nonempty front_free _ H). reflexivity.
Qed.

Lemma los_app (a b : string) :
  list_ascii_of_string (a ++ b) =
  (list_ascii_of_string a ++ list_ascii_of_string b)%list.
Proof. induction a as [|c a IH]; simpl; [reflexivity|]. rewrite IH. reflexivity. Qed.

Lemma sol_app (a b : list ascii) :
  string_of_list_ascii (a ++ b) =
  (string_of_list_ascii a ++ string_of_list_ascii b)%string.
Proof. induction a as [|c a IH]; simpl; [reflexivity|]. rewrite IH. reflexivity. Qed.

Lemma whiteSpaceBytes_chars :
  JS.whiteSpaceBytes = List.map list_ascii_of_string JS.whiteSpaceChars.
Proof. reflexivity. Qed.

Lemma blank_bytes (s : string) :
  blank s <-> madeOf JS.whiteSpaceBytes (list_ascii_of_string s).
Proof.
  split.
  - induction 1 as [|w s Hin Hs IH]; [constructor|].
    rewrite los_app. constructor; [|exact IH].
    rewrite whiteSpaceBytes_chars. apply in_map. exact Hin.
  - intros H. remember (list_ascii_of_string s) as l eqn:E.
    revert s E. induction H as [|w l Hin Hl IH]; intros s E.
    + destruct s; [constructor | discriminate].
    + apply (f_equal string_of_list_ascii) in E.
      rewrite string_of_list_ascii_of_string, sol_app in E. subst s.
      rewrite whiteSpaceBytes_chars in Hin. apply in_map_iff in Hin.
      destruct Hin as [ch [<- Hch]]. rewrite string_of_list_ascii_of_string.
      constructor; [exact Hch|]. apply IH.
      rewrite list_ascii_of_string_of_list_ascii. reflexivity.
Qed.

Lemma blank_app (a b : string) : blank a -> blank b -> blank (a ++ b).
Proof.
  induction 1 as [|w s Hin Hs IH]; intros Hb; [exact Hb|].
  rewrite append_assoc. constructor; [exact Hin | apply IH; exact Hb].
Qed.

(** Trimming leaves nothing exactly when the text is blank. *)
Lemma trim_blank (s : string) : JS.trim s = "" <-> blank s.
Proof.
  rewrite blank_bytes, <- trimBytes_nil_iff, trim_bytes. split.
  - intros H. apply (f_equal list_ascii_of_string) in H.
    rewrite list_ascii_of_string_of_list_ascii in H. exact H.
  - intros ->. reflexivity.
Qed.

(** Trimming removes the white space around the text, and that only. *)
Lemma trim_trims (s : string) : trims s (JS.trim s).
Proof.
  split.
  - destruct (trimBytes_split (list_ascii_of_string s))
      as (pre & post & Hl & Hpre & Hpost).
    exists (string_of_list_ascii pre), (string_of_list_ascii post).
    split; [|split].
    + rewrite trim_bytes, <- !sol_app, <- Hl, string_of_list_ascii_of_string.
      reflexivity.
    + apply blank_bytes. rewrite list_ascii_of_string_of_list_ascii. exact Hpre.
    + apply blank_bytes. rewrite list_ascii_of_string_of_list_ascii. exact Hpost.
  - intros w u Hin.
    assert (Hb : In (list_ascii_of_string w) JS.whiteSpaceBytes)
      by (rewrite whiteSpaceBytes_chars; apply in_map; exact Hin).
    split; intros E; apply (f_equal list_ascii_of_string) in E;
      rewrite trim_bytes, list_ascii_of_string_of_list_ascii, los_app in E.
    + pose proof (stripOne_None _ _ (trimBytes_clean_front (list_ascii_of_string s))
                    _ Hb) as H.
      rewrite E in H.
      assert (JS.startsWith (list_ascii_of_string w)
                (list_ascii_of_string w ++ list_ascii_of_string u) = true)
        by (apply startsWith_app; eexists; reflexivity).
      congruence.
    + pose proof (stripOne_None _ _ (trimBytes_clean_back (list_ascii_of_string s))
                    _ (in_map (@List.rev ascii) _ _ Hb)) as H.
      rewrite E, rev_app_distr in H.
      assert (JS.startsWith (List.rev (list_ascii_of_string w))
                (List.rev (list_ascii_of_string w)
                 ++ List.rev (list_ascii_of_string u)) = true)
        by (apply startsWith_app; eexists; reflexivity).
      congruence.
Qed.

Lemma trim_idem (s : string) : JS.trim (JS.trim s) = JS.trim s.
Proof.
  rewrite (trim_bytes (JS.trim s)), (trim_bytes s).
  rewrite list_ascii_of_string_of_list_ascii, trimBytes_idem. reflexivity.
Qed.

(** *** Lowercase on ASCII text *)

Lemma append_empty_r (s : string) : (s ++ "")%string = s.
Proof. induction s as [|c s IH]; simpl; [reflexivity|]. rewrite IH. reflexivity. Qed.

Lemma concat_cons (x : string) (l : list string) :
  String.concat "" (x :: l) = (x ++ String.concat "" l)%string.
Proof. destruct l; simpl; [rewrite append_empty_r|]; reflexivity. Qed.

Lemma chars_ascii (a : ascii) (s : string) :
  (N_of_ascii a < 0x80)%N ->
  JS.chars (String a s) = String a "" :: JS.chars s.
Proof.
  intros H.
  assert (Hw : JS.width a = 1%N).
  { unfold JS.width. destruct (N.ltb_spec (N_of_ascii a) 0xC0); [reflexivity | lia]. }
  destruct s as [|b [|c [|d s]]]; cbn [JS.chars]; try rewrite Hw; reflexivity.
Qed.

Lemma lowerChar_ascii (before after : list N) (a : ascii) :
  (N_of_ascii a < 0x80)%N ->
  JS.lowerChar before (String a "") after =
  String (if ((0x41 <=? N_of_ascii a) && (N_of_ascii a <=? 0x5A))%N
          then ascii_of_N (N_of_ascii a + 0x20)
          else a) "".
Proof.
  intros H.
  assert (Hc : JS.codePoint (String a "") = N_of_ascii a).
  { unfold JS.codePoint. rewrite (proj2 (N.ltb_lt _ _) H). reflexivity. }
  unfold JS.lowerChar. cbv zeta. rewrite Hc.
  replace (N_of_ascii a =? 0x3A3)%N with false
    by (symmetry; apply N.eqb_neq; lia).
  replace (N_of_ascii a =? 0x130)%N with false
    by (symmetry; apply N.eqb_neq; lia).
  unfold JS.lowerCodePoint. rewrite (proj2 (N.ltb_lt _ _) H).
  destruct ((0x41 <=? N_of_ascii a) && (N_of_ascii a <=? 0x5A))%N eqn:E;
    [|reflexivity].
  apply andb_true_iff in E. destruct E as [_ E]. apply N.leb_le in E.
  unfold JS.fromCodePoint.
  rewrite (proj2 (N.ltb_lt (N_of_ascii a + 0x20) 0x80)) by lia. reflexivity.
Qed.

(** On ASCII text [toLowerCase] replaces the letters A-Z by a-z and
    changes nothing else. *)
Lemma toLowerCase_ascii (s : string) :
  asciiOnly s -> JS.toLowerCase s = asciiLower s.
Proof.
  unfold JS.toLowerCase, asciiOnly. generalize (@nil N) as before.
  induction s as [|a s IH]; intros before H; [reflexivity|].
  simpl in H. apply Forall_cons_iff in H. destruct H as [Ha Hs].
  rewrite (chars_ascii a s Ha). cbn [JS.lowerFrom].
  rewrite concat_cons, (lowerChar_ascii _ _ a Ha), (IH _ Hs). reflexivity.
Qed.

Lemma asciiOnly_app (a b : string) :
  asciiOnly (a ++ b) <-> asciiOnly a /\ asciiOnly b.
Proof. unfold asciiOnly. rewrite los_app. apply Forall_app. Qed.

Lemma trim_asciiOnly (s : string) : asciiOnly s -> asciiOnly (JS.trim s).
Proof.
  intros H. destruct (trim_trims s) as [(pre & post & E & _) _].
  rewrite E in H. apply asciiOnly_app in H. destruct H as [_ H].
  apply asciiOnly_app in H. apply H.
Qed.

(** ** Facts about the store updates *)

Section Lists.

Context {A : Type}.

Lemma filter_filter (f g : A -> bool) (l : list A) :
  List.filter f (List.filter g l) = List.filter (fun x => g x && f x) l.
Proof.
  induction l as [|x l IH]; simpl; [reflexivity|].
  destruct (g x); simpl; [destruct (f x)|]; rewrite IH; reflexivity.
Qed.

Lemma subsequence_refl (l : list A) : subsequence l l.
Proof. induction l; constructor; assumption. Qed.

Lemma subsequence_filter (f : A -> bool) (l : list A) :
  subsequence (List.filter f l) l.
Proof.
  induction l as [|x l IH]; simpl; [constructor|].
  destruct (f x); constructor; exact IH.
Qed.

End Lists.

Lemma ids_replaceById (u : Book.t) (l : list Book.t) :
  ids (replaceById u l) = ids l.
Proof.
  unfold ids, replaceById. induction l as [|b l IH]; simpl; [reflexivity|].
  rewrite IH. destruct (Id_eqb (Book.id b) (Book.id u)) eqn:E; [|reflexivity].
  apply Id_eqb_eq in E. congruence.
Qed.

Lemma replaceById_absent (u : Book.t) (l : list Book.t) :
  (forall b, In b l -> Book.id b <> Book.id u) -> replaceById u l = l.
Proof.
  unfold replaceById. induction l as [|b l IH]; simpl; intros H; [reflexivity|].
  rewrite IH by (intros; apply H; right; assumption).
  destruct (Id_eqb (Book.id b) (Book.id u)) eqn:E; [|reflexivity].
  apply Id_eqb_eq in E. exfalso. apply (H b); [left; reflexivity | exact E].
Qed.

Lemma replaceById_nth (u : Book.t) (l : list Book.t) (n : nat) :
  nth_error (replaceById u l) n =
  option_map (fun b => if Id_eqb (Book.id b) (Book.id u) then u else b)
             (nth_error l n).
Proof. unfold replaceById. apply nth_error_map. Qed.

Lemma replaceById_In (u b : Book.t) (l : list Book.t) :
  In b (replaceById u l) <->
  (b = u /\ In (Book.id u) (ids l)) \/ (In b l /\ Book.id b <> Book.id u).
Proof.
  unfold replaceById, ids. rewrite in_map_iff. split.
  - intros [x [Hx Hin]].
    destruct (Id_eqb (Book.id x) (Book.id u)) eqn:E.
    + left. split; [congruence|]. apply Id_eqb_eq in E. rewrite <- E.
      apply in_map. exact Hin.
    + right. subst x. split; [exact Hin | apply Id_eqb_neq; exact E].
  - intros [[-> Hin] | [Hin Hne]].
    + apply in_map_iff in Hin. destruct Hin as [x [Hx Hin]].
      exists x. split; [|exact Hin]. rewrite Hx, Id_eqb_refl. reflexivity.
    + exists b. split; [|exact Hin].
      apply Id_eqb_neq in Hne. rewrite Hne. reflexivity.
Qed.

Lemma replaceById_twice (u v : Book.t) (l : list Book.t) :
  Book.id u = Book.id v ->
  replaceById v (replaceById u l) = replaceById v l.
Proof.
  intros E. unfold replaceById. rewrite map_map. apply map_ext. intros b.
  rewrite <- E.
  destruct (Id_eqb (Book.id b) (Book.id u)) eqn:Eb; [|rewrite Eb; reflexivity].
  rewrite Id_eqb_refl. reflexivity.
Qed.

Lemma replaceById_self (r : Book.t) (l : list Book.t) :
  NoDup (ids l) -> In r l -> replaceById r l = l.
Proof.
  unfold replaceById, ids. induction l as [|b l IH]; simpl; intros Hnd Hin;
    [contradiction|].
  apply NoDup_cons_iff in Hnd. destruct Hnd as [Hni Hnd]. destruct Hin as [->|Hin].
  - rewrite Id_eqb_refl. f_equal.
    apply (replaceById_absent r l). intros b Hb E. apply Hni. rewrite <- E.
    apply in_map. exact Hb.
  - rewrite (IH Hnd Hin). destruct (Id_eqb (Book.id b) (Book.id r)) eqn:E;
      [|reflexivity].
    apply Id_eqb_eq in E. exfalso. apply Hni. rewrite E. apply in_map. exact Hin.
Qed.

Lemma removeById_In (i : Id) (b : Book.t) (l : list Book.t) :
  In b (removeById i l) <-> In b l /\ Book.id b <> i.
Proof.
  unfold removeById. rewrite filter_In, negb_true_iff, Id_eqb_neq. reflexivity.
Qed.

Lemma ids_removeById_NoDup (i : Id) (l : list Book.t) :
  NoDup (ids l) -> NoDup (ids (removeById i l)).
Proof.
  unfold ids, removeById. induction l as [|b l IH]; simpl; intros Hnd;
    [constructor|].
  apply NoDup_cons_iff in Hnd. destruct Hnd as [Hni Hnd].
  destruct (negb (Id_eqb (Book.id b) i)); simpl; [|apply IH; exact Hnd].
  constructor; [|apply IH; exact Hnd].
  intros Hin. apply Hni. apply in_map_iff in Hin. destruct Hin as [x [Hx Hin]].
  apply filter_In in Hin. rewrite <- Hx. apply in_map. apply Hin.
Qed.

(** ** The view projection *)

Lemma visibleb_visible (st : state) (b : Book.t) :
  visibleb st b = true <-> visible st b.
Proof.
  unfold visibleb, visible.
  rewrite andb_true_iff, includes_substring.
  destruct (onlyFav st), (Book.isFavorite b); simpl; intuition congruence.
Qed.

Lemma filtered_projection (st : state) : filtered st = projection st.
Proof.
  unfold filtered, projection. rewrite filter_filter. apply filter_ext.
  intros b. unfold visibleb. cbv zeta. rewrite or_str_empty, negb_involutive.
  replace (if onlyFav st then Book.isFavorite b else true)
    with (implb (onlyFav st) (Book.isFavorite b))
    by (destruct (onlyFav st); reflexivity).
  destruct (JS.truthy_str (JS.toLowerCase (JS.trim (q st)))) eqn:E; [reflexivity|].
  apply truthy_str_false in E. rewrite E, includes_empty. reflexivity.
Qed.

Lemma visible_ascii (st : state) (b : Book.t) :
  asciiOnly (q st) -> asciiOnly (Book.title b) ->
  (visible st b <->
   (onlyFav st = true -> Book.isFavorite b = true) /\
   substring (asciiLower (JS.trim (q st))) (asciiLower (Book.title b))).
Proof.
  intros Hq Ht. unfold visible.
  rewrite (toLowerCase_ascii _ (trim_asciiOnly _ Hq)), (toLowerCase_ascii _ Ht).
  reflexivity.
Qed.

(** C6: the view projection is the store filtered, in store order, by
    "favoritesOnly implies isFavorite" and "the trimmed, lowercased query
    occurs in the lowercased title"; a blank query lets every record
    through; the projection depends on the store and the filter state
    only, and changing the filter state leaves the store as it is.
    Trimmed means without the white space of ECMA-262 around it, so
    that a query of white space only lets every record through; on
    ASCII text lowercased means with a-z for A-Z. *)
Theorem view_projection (st : state) :
  filtered st = List.filter (visibleb st) (books st) /\
  (forall b, visibleb st b = true <-> visible st b) /\
  (forall b, In b (filtered st) <-> In b (books st) /\ visible st b) /\
  subsequence (filtered st) (books st) /\
  (JS.trim (q st) = "" ->
   forall b, In b (filtered st) <->
             In b (books st) /\ (onlyFav st = true -> Book.isFavorite b = true)) /\
  (forall st', books st' = books st -> q st' = q st -> onlyFav st' = onlyFav st ->
               filtered st' = filtered st) /\
  (forall text, books (setQ text st) = books st) /\
  (forall f, books (setOnlyFav f st) = books st) /\
  trims (q st) (JS.trim (q st)) /\
  (blank (q st) ->
   forall b, In b (filtered st) <->
             In b (books st) /\ (onlyFav st = true -> Book.isFavorite b = true)) /\
  (asciiOnly (q st) ->
   forall b, asciiOnly (Book.title b) ->
     (In b (filtered st) <->
      In b (books st) /\
      (onlyFav st = true -> Book.isFavorite b = true) /\
      substring (asciiLower (JS.trim (q st))) (asciiLower (Book.title b)))).
Proof.
  assert (Hin : forall b, In b (filtered st) <-> In b (books st) /\ visible st b).
  { intros b. rewrite filtered_projection. unfold projection.
    rewrite filter_In, visibleb_visible. reflexivity. }
  assert (Hempty : JS.trim (q st) = "" ->
            forall b, In b (filtered st) <->
              In b (books st) /\ (onlyFav st = true -> Book.isFavorite b = true)).
  { intros Hq b. rewrite Hin. unfold visible. rewrite Hq.
    change (JS.toLowerCase "") with "".
    split; [tauto|]. intros [Hb Hf]. split; [exact Hb|]. split; [exact Hf|].
    exists EmptyString, (JS.toLowerCase (Book.title b)). reflexivity. }
  split; [apply filtered_projection|].
  split; [apply visibleb_visible|].
  split; [exact Hin|].
  split; [rewrite filtered_projection; apply subsequence_filter|].
  split; [exact Hempty|].
  split; [intros st' Hb Hq Hf; unfold filtered; rewrite Hb, Hq, Hf; reflexivity|].
  split; [reflexivity|]. split; [reflexivity|].
  split; [apply trim_trims|].
  split; [intros Hq; apply Hempty, trim_blank, Hq|].
  intros Hq b Ht. rewrite Hin, (visible_ascii st b Hq Ht). reflexivity.
Qed.

Lemma view_projection_witness :
  filtered (setQ "dun" shelf) = [dune] /\
  filtered (setOnlyFav negb (setQ "dun" shelf)) = [].
Proof.
  split.
  - rewrite (proj1 (view_projection (setQ "dun" shelf))). reflexivity.
  - rewrite (proj1 (view_projection (setOnlyFav negb (setQ "dun" shelf)))).
    reflexivity.
Defined.

(** ** Running the handlers *)

Lemma truthy_str_true (s : string) : JS.truthy_str s = true <-> s <> "".
Proof. destruct s; simpl; split; congruence. Qed.

(** The guard of [saveBook], as a condition on the draft. *)
Lemma saveBook_guard (f : Form.t) :
  negb (JS.truthy_str (JS.trim (Form.title f)))
  || negb (JS.truthy_str (JS.trim (Form.author f))) = true
  <-> JS.trim (Form.title f) = "" \/ JS.trim (Form.author f) = "".
Proof.
  rewrite orb_true_iff, !negb_true_iff, !truthy_str_false. reflexivity.
Qed.

Lemma saveBook_invalid (st : state) :
  JS.trim (Form.title (form st)) = "" \/ JS.trim (Form.author (form st)) = "" ->
  saveBook st = showToast "Please fill Title and Author" error.
Proof.
  intros H. apply saveBook_guard in H. unfold saveBook. rewrite H. reflexivity.
Qed.

Lemma saveBook_valid_guard (f : Form.t) :
  JS.trim (Form.title f) <> "" -> JS.trim (Form.author f) <> "" ->
  negb (JS.truthy_str (JS.trim (Form.title f)))
  || negb (JS.truthy_str (JS.trim (Form.author f))) = false.
Proof.
  intros Ht Ha. apply truthy_str_true in Ht, Ha. rewrite Ht, Ha. reflexivity.
Qed.

(** A create, run to completion. *)
Lemma exec_create (srv : server) (st cur : state) :
  JS.trim (Form.title (form st)) <> "" ->
  JS.trim (Form.author (form st)) <> "" ->
  editing st = None ->
  exec srv (saveBook st) cur =
  let data := spread_create (payload (form st)) in
  match srv _ (POST data) with
  | HttpOk created =>
      mkOutcome
        (setForm (fun _ => emptyForm)
           (setEditing None
              (setIsModalOpen false
                 (setToast (mkToast true "✅ Book added" success)
                    (setBooks (fun prev => (prev ++ [created])%list) cur)))))
        (Some tt) [Call (POST data)]
  | _ =>
      mkOutcome
        (setToast (mkToast true "❌ Save failed. Check API / network." error) cur)
        (Some tt) [Call (POST data)]
  end.
Proof.
  intros Ht Ha He. unfold saveBook.
  rewrite (saveBook_valid_guard _ Ht Ha), He. simpl.
  destruct (srv Book.t (POST (spread_create (payload (form st))))); reflexivity.
Qed.

(** An update, run to completion. *)
Lemma exec_update (srv : server) (st cur : state) (e : Book.t) :
  JS.trim (Form.title (form st)) <> "" ->
  JS.trim (Form.author (form st)) <> "" ->
  editing st = Some e ->
  exec srv (saveBook st) cur =
  let data := spread_edit e (payload (form st)) in
  match srv _ (PUT (Book.id e) data) with
  | HttpOk updated =>
      mkOutcome
        (setForm (fun _ => emptyForm)
           (setEditing None
              (setIsModalOpen false
                 (setToast (mkToast true "✅ Book updated" success)
                    (setBooks (replaceById updated) cur)))))
        (Some tt) [Call (PUT (Book.id e) data)]
  | _ =>
      mkOutcome
        (setToast (mkToast true "❌ Save failed. Check API / network." error) cur)
        (Some tt) [Call (PUT (Book.id e) data)]
  end.
Proof.
  intros Ht Ha He. unfold saveBook.
  rewrite (saveBook_valid_guard _ Ht Ha), He. simpl.
  destruct (srv Book.t (PUT (Book.id e) (spread_edit e (payload (form st)))));
    reflexivity.
Qed.

(** A toggle, run to completion. *)
Lemma exec_toggleFav (srv : server) (book : Book.t) (cur : state) :
  exec srv (toggleFav book) cur =
  match srv _ (PUT (Book.id book) (spread_toggle book)) with
  | HttpOk updated =>
      mkOutcome
        (setToast (mkToast true
                     (if Book.isFavorite updated
                      then "❤️ Added to favorites"
                      else "🤍 Removed from favorites") info)
           (setBooks (replaceById updated) cur))
        (Some tt) [Call (PUT (Book.id book) (spread_toggle book))]
  | _ =>
      mkOutcome
        (setToast (mkToast true "❌ Failed to update favorite" error) cur)
        (Some tt) [Call (PUT (Book.id book) (spread_toggle book))]
  end.
Proof.
  unfold toggleFav. simpl.
  destruct (srv Book.t (PUT (Book.id book) (spread_toggle book))); reflexivity.
Qed.

(** A confirmed delete, run to completion. *)
Lemma exec_doDelete (srv : server) (st cur : state) (i : Id) :
  confirmId st = Some i ->
  Id_truthy i = true ->
  exec srv (doDelete st) cur =
  match srv _ (DELETE i) with
  | HttpOk _ =>
      mkOutcome
        (setConfirmId None
           (setToast (mkToast true "🗑️ Book deleted" success)
              (setBooks (removeById i) cur)))
        (Some tt) [Call (DELETE i)]
  | _ =>
      mkOutcome
        (setConfirmId None
           (setToast (mkToast true "❌ Delete failed" error) cur))
        (Some tt) [Call (DELETE i)]
  end.
Proof.
  intros Hc Ht. unfold doDelete. rewrite Hc, Ht. simpl.
  destruct (srv unit (DELETE i)); reflexivity.
Qed.

(** Without a shown confirmation, [doDelete] returns at once. *)
Lemma exec_doDelete_idle (srv : server) (st cur : state) :
  confirmShown st = false ->
  exec srv (doDelete st) cur = mkOutcome cur (Some tt) [].
Proof.
  unfold confirmShown, doDelete. destruct (confirmId st) as [i|]; [|reflexivity].
  intros ->. reflexivity.
Qed.

(** The mount effect, run to completion. *)
Lemma exec_initialLoad (srv : server) (cur : state) :
  exec srv initialLoad cur =
  match srv _ GET with
  | HttpOk data =>
      mkOutcome
        (setLoading false
           (setBooks (fun _ => match data with JArray l => l | JOther => [] end) cur))
        (Some tt) [Call GET]
  | _ =>
      mkOutcome
        (setLoading false
           (setToast (mkToast true "❌ Cannot load books. Check your API URL." error)
              cur))
        (Some tt) [Call GET]
  end.
Proof.
  unfold initialLoad. simpl. destruct (srv listing GET); reflexivity.
Qed.

Lemma confirmShown_true (st : state) :
  confirmShown st = true -> exists i, confirmId st = Some i /\ Id_truthy i = true.
Proof.
  unfold confirmShown. destruct (confirmId st) as [i|]; [|discriminate].
  intros H. exists i. split; [reflexivity | exact H].
Qed.

(** ** Failure of the remote call *)

(** C1: when the remote resource fails every call, each operation
    (create, update, toggle-favorite, delete) leaves the collection as
    it was, settles without an uncaught exception, and, when it did
    issue a call, ends with an error notification on display. *)
Theorem transport_error_keeps_store
  (op : operation) (srv : server) (st cur : state) :
  (forall R (r : request R), fails (srv R r) = true) ->
  let o := exec srv (handler op st) cur in
  books (final o) = books cur /\
  (calls o <> [] ->
   show (toast (final o)) = true /\ type (toast (final o)) = error) /\
  result o = Some tt.
Proof.
  intros Hfail. destruct op as [|book|]; simpl handler.
  - destruct (string_dec (JS.trim (Form.title (form st))) "") as [Ht|Ht];
      [rewrite saveBook_invalid by (left; exact Ht); simpl; intuition congruence|].
    destruct (string_dec (JS.trim (Form.author (form st))) "") as [Ha|Ha];
      [rewrite saveBook_invalid by (right; exact Ha); simpl; intuition congruence|].
    destruct (editing st) as [e|] eqn:He.
    + rewrite (exec_update srv st cur e Ht Ha He). cbv zeta.
      pose proof (Hfail _ (PUT (Book.id e) (spread_edit e (payload (form st))))) as F.
      destruct (srv Book.t _); simpl in *; [| |discriminate]; auto.
    + rewrite (exec_create srv st cur Ht Ha He). cbv zeta.
      pose proof (Hfail _ (POST (spread_create (payload (form st))))) as F.
      destruct (srv Book.t _); simpl in *; [| |discriminate]; auto.
  - rewrite exec_toggleFav.
    pose proof (Hfail _ (PUT (Book.id book) (spread_toggle book))) as F.
    destruct (srv Book.t _); simpl in *; [| |discriminate]; auto.
  - destruct (confirmShown st) eqn:Hs.
    + destruct (confirmShown_true st Hs) as [i [Hi Ht]].
      rewrite (exec_doDelete srv st cur i Hi Ht).
      pose proof (Hfail _ (DELETE i)) as F.
      destruct (srv unit _); simpl in *; [| |discriminate]; auto.
    + rewrite (exec_doDelete_idle srv st cur Hs). simpl. intuition congruence.
Qed.

Lemma transport_error_keeps_store_witness :
  let st := setEditing (Some dune) (setForm (fun _ => Form.mk "Dune 2" "Herbert" "" "" 3) shelf) in
  let o := exec failing_server (handler Save st) st in
  books (final o) = [dune] /\
  (calls o <> [] ->
   show (toast (final o)) = true /\ type (toast (final o)) = error) /\
  result o = Some tt.
Proof.
  intros st.
  apply (transport_error_keeps_store Save failing_server st st).
  intros R r. reflexivity.
Defined.

(** ** Validation *)

(** C3: when the trimmed title or the trimmed author of the draft is
    empty, saving (as a create or as an update) issues no remote call,
    puts an error notification on display, and leaves the collection,
    the editor, the record being edited and the draft as they were.
    The trimmed text is the text without the white space of ECMA-262
    around it, and it is empty exactly when the text consists of such
    white space only. *)
Theorem invalid_draft_rejected (srv : server) (st cur : state) :
  (JS.trim (Form.title (form st)) = "" \/ JS.trim (Form.author (form st)) = "" ->
   let o := exec srv (saveBook st) cur in
   calls o = [] /\
   toast (final o) = mkToast true "Please fill Title and Author" error /\
   books (final o) = books cur /\
   isModalOpen (final o) = isModalOpen cur /\
   editing (final o) = editing cur /\
   form (final o) = form cur /\
   result o = Some tt) /\
  (forall s, JS.trim s = "" <-> blank s) /\
  (forall s, trims s (JS.trim s)).
Proof.
  split; [|split; [apply trim_blank | apply trim_trims]].
  intros H. rewrite (saveBook_invalid st H). simpl. repeat split.
Qed.

Lemma invalid_draft_rejected_witness :
  let st := setIsModalOpen true (setForm (fun _ => Form.mk "" "X" "" "" 0) shelf) in
  let o := exec echo_server (saveBook st) st in
  calls o = [] /\
  toast (final o) = mkToast true "Please fill Title and Author" error /\
  books (final o) = [dune] /\
  isModalOpen (final o) = true /\
  editing (final o) = None /\
  form (final o) = Form.mk "" "X" "" "" 0 /\
  result o = Some tt.
Proof.
  intros st. apply (proj1 (invalid_draft_rejected echo_server st st)).
  left. reflexivity.
Defined.

(** A title of no-break spaces is rejected like an empty one. *)
Example no_break_space_title_rejected :
  let st := setForm (fun _ => Form.mk "  " "X" "" "" 0) shelf in
  calls (exec echo_server (saveBook st) st) = [].
Proof. reflexivity. Qed.

(** ** Initial load *)

(** C9: when the initial GET fails, by rejection or by status, the
    mount effect settles without an uncaught exception, the collection
    is left as it is, which from the first render is empty, an error
    notification is on display and the loading flag is off. *)
Theorem initial_load_failure (srv : server) (cur : state) :
  fails (srv _ GET) = true ->
  let o := exec srv initialLoad cur in
  result o = Some tt /\
  calls o = [Call GET] /\
  books (final o) = books cur /\
  books (final (exec srv initialLoad init)) = [] /\
  toast (final o) =
    mkToast true "❌ Cannot load books. Check your API URL." error /\
  loading (final o) = false.
Proof.
  intros F. rewrite !exec_initialLoad.
  destruct (srv listing GET); simpl in *; [| |discriminate]; repeat split.
Qed.

Lemma initial_load_failure_witness :
  let o := exec failing_server initialLoad init in
  final o =
    setLoading false
      (setToast (mkToast true "❌ Cannot load books. Check your API URL." error)
         init) /\
  result o = Some tt /\
  books (final o) = [].
Proof.
  intros o. split; [reflexivity|].
  destruct (initial_load_failure failing_server init) as (Hr & _ & _ & Hb & _).
  - reflexivity.
  - split; [exact Hr | exact Hb].
Defined.

(** C10: when the initial GET succeeds with a body that is not an
    array, the collection is set to the empty list, the notification is
    left as it was, and the loading flag is turned off. *)
Theorem initial_load_not_array (srv : server) (cur : state) :
  srv _ GET = HttpOk JOther ->
  let o := exec srv initialLoad cur in
  books (final o) = [] /\
  toast (final o) = toast cur /\
  loading (final o) = false /\
  result o = Some tt.
Proof.
  intros H. rewrite exec_initialLoad, H. simpl. repeat split.
Qed.

Lemma initial_load_not_array_witness :
  let o := exec odd_server initialLoad init in
  books (final o) = [] /\
  toast (final o) = mkToast false "" success /\
  loading (final o) = false /\
  result o = Some tt.
Proof.
  apply (initial_load_not_array odd_server init). reflexivity.
Defined.

(** ** Create *)

Lemma clamp_max_min (x : Z) : Z.max 0 (Z.min 5 x) = clamp 0 5 x.
Proof.
  unfold clamp. destruct (Z.ltb_spec x 0), (Z.ltb_spec 5 x); lia.
Qed.

Lemma clamp_range (x : Z) : 0 <= clamp 0 5 x <= 5.
Proof.
  unfold clamp. destruct (Z.ltb_spec x 0), (Z.ltb_spec 5 x); lia.
Qed.

Lemma or_str_eqb (a b : string) :
  JS.or_str a b = if String.eqb a "" then b else a.
Proof. destruct a; reflexivity. Qed.

Lemma spread_create_submitted (d : Form.t) :
  spread_create (payload d) = submitted d.
Proof.
  unfold spread_create, payload, submitted, JS.Number. simpl.
  rewrite or_num_zero, clamp_max_min, or_str_eqb. reflexivity.
Qed.

(** The texts of the submitted record are those of the draft without
    the white space around them, a blank cover giving the placeholder. *)
Lemma submitted_trims (d : Form.t) :
  trims (Form.title d) (Body.title (submitted d)) /\
  trims (Form.author d) (Body.author (submitted d)) /\
  trims (Form.description d) (Body.description (submitted d)) /\
  (blank (Form.coverImage d) -> Body.coverImage (submitted d) = placeholder) /\
  (~ blank (Form.coverImage d) ->
   trims (Form.coverImage d) (Body.coverImage (submitted d))).
Proof.
  unfold submitted. simpl.
  split; [apply trim_trims|]. split; [apply trim_trims|].
  split; [apply trim_trims|]. split.
  - intros H. apply trim_blank in H. rewrite H. reflexivity.
  - intros H.
    destruct (String.eqb_spec (JS.trim (Form.coverImage d)) "") as [E|E];
      [exfalso; apply H, trim_blank, E | apply trim_trims].
Qed.

(** C2, as the code has it: for a draft whose trimmed title and trimmed
    author are not empty, a create whose POST succeeds issues exactly
    that one call; the body sent has the trimmed title, author and
    description, the rating clamped to [0,5], the placeholder when the
    trimmed cover is blank and the trimmed cover otherwise, and
    [isFavorite] false; the record of the reply is appended as the one
    new element of the collection, and it has those fields when the
    reply confirms the body.  Trimmed means without the white space of
    ECMA-262 around it. *)
Theorem create_appends_confirmed_record
  (srv : server) (st cur : state) (created : Book.t) :
  JS.trim (Form.title (form st)) <> "" ->
  JS.trim (Form.author (form st)) <> "" ->
  editing st = None ->
  srv _ (POST (submitted (form st))) = HttpOk created ->
  let d := form st in
  let o := exec srv (saveBook st) cur in
  calls o = [Call (POST (submitted d))] /\
  books (final o) = (books cur ++ [created])%list /\
  (confirms created (submitted d) ->
   Book.title created = JS.trim (Form.title d) /\
   Book.author created = JS.trim (Form.author d) /\
   Book.description created = JS.trim (Form.description d) /\
   Book.rating created = clamp 0 5 (Form.rating d) /\
   0 <= Book.rating created <= 5 /\
   (JS.trim (Form.coverImage d) = "" -> Book.coverImage created = placeholder) /\
   (JS.trim (Form.coverImage d) <> "" ->
    Book.coverImage created = JS.trim (Form.coverImage d)) /\
   Book.isFavorite created = false) /\
  (~ blank (Form.title d) /\ ~ blank (Form.author d)) /\
  trims (Form.title d) (Body.title (submitted d)) /\
  trims (Form.author d) (Body.author (submitted d)) /\
  trims (Form.description d) (Body.description (submitted d)) /\
  (blank (Form.coverImage d) -> Body.coverImage (submitted d) = placeholder) /\
  (~ blank (Form.coverImage d) ->
   trims (Form.coverImage d) (Body.coverImage (submitted d))).
Proof.
  intros Ht Ha He Hs d o. subst d o.
  rewrite (exec_create srv st cur Ht Ha He). cbv zeta.
  rewrite spread_create_submitted, Hs. simpl.
  split; [reflexivity|]. split; [reflexivity|].
  split; [|split; [|apply submitted_trims]].
  - intros (Ct & Cau & Cc & Cd & Cr & Cf). simpl in *.
    rewrite Ct, Cau, Cc, Cd, Cr, Cf.
    repeat split; try apply clamp_range.
    + intros ->. reflexivity.
    + intros Hc. destruct (String.eqb_spec (JS.trim (Form.coverImage (form st))) "");
        [contradiction | reflexivity].
  - split; intros Hb; apply trim_blank in Hb; contradiction.
Qed.

Lemma create_appends_confirmed_record_witness :
  let st := setForm (fun _ => spaced_draft) shelf in
  let o := exec echo_server (saveBook st) st in
  calls o =
    [Call (POST (Body.mk "Emma" "Austen" "https://covers.test/emma.png" "" 5 false))] /\
  books (final o) =
    [dune; Book.mk (IdStr "7") "Emma" "Austen" "https://covers.test/emma.png" "" 5 false].
Proof.
  intros st o.
  pose proof (create_appends_confirmed_record echo_server st st
    (Book.mk (IdStr "7") "Emma" "Austen" "https://covers.test/emma.png" "" 5 false))
    as H.
  destruct H as [Hc [Hb _]].
  - discriminate.
  - discriminate.
  - reflexivity.
  - reflexivity.
  - split; [exact Hc | exact Hb].
Defined.

(** C2 as stated fails on the cover: a cover typed with blanks around it
    is stored trimmed, not as the draft has it. *)
Lemma create_cover_counterexample :
  let st := setForm (fun _ => spaced_draft) shelf in
  let o := exec echo_server (saveBook st) st in
  JS.trim (Form.title spaced_draft) <> "" /\
  JS.trim (Form.author spaced_draft) <> "" /\
  JS.trim (Form.coverImage spaced_draft) <> "" /\
  exists created,
    books (final o) = (books st ++ [created])%list /\
    Book.coverImage created = "https://covers.test/emma.png" /\
    Book.coverImage created <> Form.coverImage spaced_draft.
Proof.
  cbv zeta. split; [discriminate|]. split; [discriminate|]. split; [discriminate|].
  exists (Book.mk (IdStr "7") "Emma" "Austen" "https://covers.test/emma.png" "" 5 false).
  split; [reflexivity|]. split; [reflexivity|]. discriminate.
Qed.

(** ** Reconciliation after a PUT *)

Lemma replaceById_reconciled (u : Book.t) (l : list Book.t) :
  reconciled l u (replaceById u l).
Proof.
  unfold reconciled. split; [apply length_map|]. split.
  - intros n b Hn. rewrite replaceById_nth, Hn. simpl. split; intros H.
    + apply Id_eqb_eq in H. rewrite H. reflexivity.
    + apply Id_eqb_neq in H. rewrite H. reflexivity.
  - apply replaceById_absent.
Qed.

(** C4, as the code has it: the record returned by a successful PUT, in
    a toggle as in an update, overwrites in place every stored record
    that has its identifier and leaves the others as they are; when no
    stored record has that identifier the collection is unchanged (the
    returned record is not inserted). *)
Theorem put_reply_replaces (srv : server) (st cur : state) (updated : Book.t) :
  (forall book,
     srv _ (PUT (Book.id book) (spread_toggle book)) = HttpOk updated ->
     reconciled (books cur) updated
                (books (final (exec srv (toggleFav book) cur)))) /\
  (forall e,
     JS.trim (Form.title (form st)) <> "" ->
     JS.trim (Form.author (form st)) <> "" ->
     editing st = Some e ->
     srv _ (PUT (Book.id e) (spread_edit e (payload (form st)))) = HttpOk updated ->
     reconciled (books cur) updated
                (books (final (exec srv (saveBook st) cur)))).
Proof.
  split.
  - intros book H. rewrite exec_toggleFav, H. simpl.
    apply replaceById_reconciled.
  - intros e Ht Ha He H. rewrite (exec_update srv st cur e Ht Ha He). cbv zeta.
    rewrite H. simpl. apply replaceById_reconciled.
Qed.

Lemma put_reply_replaces_witness :
  reconciled [dune] (spread_toggle dune)
             (books (final (exec echo_server (toggleFav dune) shelf))) /\
  books (final (exec echo_server (toggleFav dune) shelf)) = [spread_toggle dune].
Proof.
  split; [|reflexivity].
  apply (proj1 (put_reply_replaces echo_server shelf shelf (spread_toggle dune)) dune).
  reflexivity.
Defined.

(** C4 as stated fails on the insertion: toggling a record that the
    store does not hold, with the server confirming it, leaves the store
    without that record. *)
Lemma upsert_counterexample :
  let updated := spread_toggle emma in
  let o := exec echo_server (toggleFav emma) shelf in
  echo_server _ (PUT (Book.id emma) (spread_toggle emma)) = HttpOk updated /\
  (forall b, In b (books shelf) -> Book.id b <> Book.id updated) /\
  result o = Some tt /\
  books (final o) = books shelf /\
  ~ In updated (books (final o)).
Proof.
  cbv zeta. split; [reflexivity|]. split.
  - intros b [<-|[]]. discriminate.
  - split; [reflexivity|]. split; [reflexivity|].
    intros [H|[]]. discriminate.
Qed.

(** ** Toggle favorite *)

Lemma spread_toggle_involutive (r : Book.t) : spread_toggle (spread_toggle r) = r.
Proof. destruct r. unfold spread_toggle. simpl. rewrite negb_involutive. reflexivity. Qed.

Lemma exec_toggleFav_echo (srv : server) (r : Book.t) (cur : state) :
  echoes srv ->
  books (final (exec srv (toggleFav r) cur)) =
  replaceById (spread_toggle r) (books cur).
Proof.
  intros He. rewrite exec_toggleFav.
  change (Book.id r) with (Book.id (spread_toggle r)).
  rewrite He. reflexivity.
Qed.

(** C7: with a server that echoes the record it is sent, toggling a
    stored record [r] and then toggling the resulting record again puts
    [r] back: after the first toggle the record under the identifier of
    [r] is [r] with [isFavorite] flipped and every other field as
    before; after the second it is [r] itself; the other records are
    left alone, and a store without repeated identifiers is restored
    entirely. *)
Theorem toggle_twice_restores (srv : server) (cur : state) (r : Book.t) :
  echoes srv ->
  In r (books cur) ->
  let r1 := spread_toggle r in
  let st1 := final (exec srv (toggleFav r) cur) in
  let st2 := final (exec srv (toggleFav r1) st1) in
  same_but_favorite r1 r /\
  Book.isFavorite r1 = negb (Book.isFavorite r) /\
  In r1 (books st1) /\
  (forall b, In b (books st1) -> Book.id b = Book.id r -> b = r1) /\
  In r (books st2) /\
  (forall b, In b (books st2) -> Book.id b = Book.id r -> b = r) /\
  (forall b, Book.id b <> Book.id r ->
             (In b (books st1) <-> In b (books cur)) /\
             (In b (books st2) <-> In b (books cur))) /\
  (NoDup (ids (books cur)) -> books st2 = books cur).
Proof.
  intros He Hin r1 st1 st2.
  assert (H1 : books st1 = replaceById r1 (books cur))
    by (apply exec_toggleFav_echo; exact He).
  assert (H2 : books st2 = replaceById r (books cur)).
  { unfold st2. rewrite exec_toggleFav_echo by exact He.
    unfold r1 at 1. rewrite spread_toggle_involutive, H1.
    apply replaceById_twice. reflexivity. }
  assert (Hid : In (Book.id r) (ids (books cur))) by (apply in_map; exact Hin).
  split; [repeat split|]. split; [reflexivity|].
  rewrite H1, H2. split; [|split; [|split; [|split; [|split]]]].
  - apply replaceById_In. left. split; [reflexivity | exact Hid].
  - intros b Hb E. apply replaceById_In in Hb.
    destruct Hb as [[-> _]|[_ Hne]]; [reflexivity | contradiction].
  - apply replaceById_In. left. split; [reflexivity | exact Hid].
  - intros b Hb E. apply replaceById_In in Hb.
    destruct Hb as [[-> _]|[_ Hne]]; [reflexivity | contradiction].
  - intros b Hne. rewrite !replaceById_In. simpl.
    split; split; try (intros [[-> _]|[Hb _]]; [contradiction Hne; reflexivity | exact Hb]);
      intros Hb; right; split; assumption.
  - intros Hnd. apply replaceById_self; assumption.
Qed.

Lemma toggle_twice_restores_witness :
  let st1 := final (exec echo_server (toggleFav dune) shelf) in
  let st2 := final (exec echo_server (toggleFav (spread_toggle dune)) st1) in
  In (spread_toggle dune) (books st1) /\ In dune (books st2) /\
  books st2 = books shelf.
Proof.
  intros st1 st2.
  assert (He : echoes echo_server) by (intros [i t a c d r f]; reflexivity).
  assert (Hin : In dune (books shelf)) by (left; reflexivity).
  destruct (toggle_twice_restores echo_server shelf dune He Hin)
    as (_ & _ & H1 & _ & H2 & _ & _ & H3).
  split; [exact H1|]. split; [exact H2|].
  apply H3. repeat constructor. simpl. tauto.
Defined.

(** ** Delete *)

(** C8: with [i] the pending-delete target, [doDelete] attempts the
    call DELETE [i] (it does so unless [i] is falsy, in which case the
    confirmation is not on screen either).  Once the attempt has
    completed the pending target is cleared, whatever the reply; on
    success the records with identifier [i] are removed and the others
    stay, in order; on failure the store is as before and an error
    notification is on display.  After [doDelete] the confirmation is
    never on screen.  Asking and then cancelling issues no call and
    leaves the store unchanged. *)
Theorem delete_after_confirmation (srv : server) (st cur : state) (i : Id) :
  confirmId st = Some i ->
  let o := exec srv (doDelete st) cur in
  calls o = (if Id_truthy i then [Call (DELETE i)] else []) /\
  (calls o <> [] ->
   confirmId (final o) = None /\
   result o = Some tt /\
   (fails (srv _ (DELETE i)) = false ->
    (forall b, In b (books (final o)) <-> In b (books cur) /\ Book.id b <> i) /\
    subsequence (books (final o)) (books cur)) /\
   (fails (srv _ (DELETE i)) = true ->
    books (final o) = books cur /\ type (toast (final o)) = error)) /\
  confirmShown (final (exec srv (doDelete st) st)) = false /\
  (let o := exec srv (askDelete i ;; cancelDelete) cur in
   calls o = [] /\ books (final o) = books cur /\ confirmId (final o) = None) /\
  (let o := exec srv (askDelete i) cur in
   calls o = [] /\ books (final o) = books cur /\ confirmId (final o) = Some i).
Proof.
  intros Hi. cbv zeta. split; [|split; [|split; [|split]]].
  - destruct (Id_truthy i) eqn:Ht.
    + rewrite (exec_doDelete srv st cur i Hi Ht).
      destruct (srv unit (DELETE i)); reflexivity.
    + rewrite exec_doDelete_idle; [reflexivity|].
      unfold confirmShown. rewrite Hi. exact Ht.
  - destruct (Id_truthy i) eqn:Ht.
    + intros _. rewrite (exec_doDelete srv st cur i Hi Ht).
      destruct (srv unit (DELETE i)); simpl;
        (split; [reflexivity|]); (split; [reflexivity|]);
        (split; [try discriminate | try discriminate; auto]).
      intros _. split; [intros b; apply removeById_In | apply subsequence_filter].
    + rewrite exec_doDelete_idle; [simpl; congruence|].
      unfold confirmShown. rewrite Hi. exact Ht.
  - destruct (confirmShown st) eqn:Hs.
    + destruct (confirmShown_true st Hs) as [j [Hj Ht]].
      rewrite (exec_doDelete srv st st j Hj Ht).
      destruct (srv unit (DELETE j)); reflexivity.
    + rewrite (exec_doDelete_idle srv st st Hs). exact Hs.
  - simpl. repeat split.
  - simpl. repeat split.
Qed.

Lemma delete_after_confirmation_witness :
  let st := setConfirmId (Some (IdNum 1)) (setBooks (fun _ => [dune; emma]) shelf) in
  let o := exec echo_server (doDelete st) st in
  calls o = [Call (DELETE (IdNum 1))] /\
  confirmId (final o) = None /\
  books (final o) = [emma].
Proof.
  intros st o.
  destruct (delete_after_confirmation echo_server st st (IdNum 1)) as [Hc _].
  - reflexivity.
  - split; [exact Hc|]. split; reflexivity.
Defined.

(** ** Distinct identifiers *)

Lemma react_store (srv : server) (ev : event) (st : state) :
  let next := books (final (exec srv (react ev st) st)) in
  next = books st \/
  next = [] \/
  (exists l, srv _ GET = HttpOk (JArray l) /\ next = l) \/
  (exists d c, srv _ (POST d) = HttpOk c /\ next = (books st ++ [c])%list) \/
  (exists u, next = replaceById u (books st)) \/
  (exists i, next = removeById i (books st)).
Proof.
  cbv zeta. destruct ev as [| |book| |f|text| |i| |op]; simpl react;
    try (left; reflexivity).
  - rewrite exec_initialLoad.
    destruct (srv listing GET) as [| |[l|]] eqn:E; simpl; auto.
    right. right. left. exists l. split; reflexivity.
  - destruct op as [|book|]; simpl handler.
    + destruct (string_dec (JS.trim (Form.title (form st))) "") as [Ht|Ht];
        [rewrite saveBook_invalid by (left; exact Ht); left; reflexivity|].
      destruct (string_dec (JS.trim (Form.author (form st))) "") as [Ha|Ha];
        [rewrite saveBook_invalid by (right; exact Ha); left; reflexivity|].
      destruct (editing st) as [e|] eqn:He.
      * rewrite (exec_update srv st st e Ht Ha He). cbv zeta.
        destruct (srv Book.t _) as [| |u]; simpl; auto.
        do 4 right. left. exists u. reflexivity.
      * rewrite (exec_create srv st st Ht Ha He). cbv zeta.
        destruct (srv Book.t _) as [| |c] eqn:E; simpl; auto.
        do 3 right. left. exists (spread_create (payload (form st))), c.
        split; [exact E | reflexivity].
    + rewrite exec_toggleFav.
      destruct (srv Book.t _) as [| |u]; simpl; auto.
      do 4 right. left. exists u. reflexivity.
    + destruct (confirmShown st) eqn:Hs.
      * destruct (confirmShown_true st Hs) as [i [Hi Ht]].
        rewrite (exec_doDelete srv st st i Hi Ht).
        destruct (srv unit _); simpl; auto.
        do 5 right. exists i. reflexivity.
      * rewrite (exec_doDelete_idle srv st st Hs). left. reflexivity.
Qed.

Lemma ids_append_NoDup (c : Book.t) (l : list Book.t) :
  NoDup (ids l) -> ~ In (Book.id c) (ids l) -> NoDup (ids (l ++ [c])).
Proof.
  intros Hnd Hfresh. unfold ids. rewrite map_app. apply NoDup_app; [exact Hnd | |].
  - repeat constructor. simpl. tauto.
  - intros a Ha [<-|[]]. exact (Hfresh Ha).
Qed.

(** *** Handlers in flight *)

(** An event changes the store only through a reply: up to its [await]
    the handler leaves the store alone, and what it leaves in flight
    settles. *)
Lemma advance_react (ev : event) (st : state) :
  books (fst (advance (react ev st) st)) = books st /\
  (forall t, snd (advance (react ev st) st) = Some t -> settles t).
Proof.
  destruct ev as [| |book| |f|text| |i| |op]; simpl react;
    try (simpl; split; [reflexivity | discriminate]).
  - simpl. split; [reflexivity|]. intros t [= <-]. split.
    + intros [| |[l|]] s; reflexivity.
    + intros [| |[l|]] s; simpl; auto. intros _ _. constructor.
  - destruct op as [|book|]; simpl handler.
    + unfold saveBook.
      destruct (negb (JS.truthy_str (JS.trim (Form.title (form st))))
                || negb (JS.truthy_str (JS.trim (Form.author (form st)))));
        [simpl; split; [reflexivity | discriminate]|].
      destruct (editing st) as [e|]; simpl; (split; [reflexivity|]);
        intros t [= <-]; (split; [intros [| |u] s; reflexivity|]);
        intros [| |u] s; simpl; auto.
      * intros _ Hnd. rewrite ids_replaceById. exact Hnd.
      * intros Hfresh Hnd. apply ids_append_NoDup; assumption.
    + simpl. split; [reflexivity|]. intros t [= <-]. split.
      * intros [| |u] s; reflexivity.
      * intros [| |u] s; simpl; auto.
        intros _ Hnd. rewrite ids_replaceById. exact Hnd.
    + unfold doDelete. destruct (confirmId st) as [i|];
        [|simpl; split; [reflexivity | discriminate]].
      destruct (negb (Id_truthy i)); [simpl; split; [reflexivity | discriminate]|].
      simpl. split; [reflexivity|]. intros t [= <-]. split.
      * intros [| |u] s; reflexivity.
      * intros [| |u] s; simpl; auto.
        intros _ Hnd. apply ids_removeById_NoDup. exact Hnd.
Qed.

Lemma running_invariant (c : config) :
  running c -> NoDup (ids (books (fst c))) /\ Forall settles (snd c).
Proof.
  induction 1 as [|st ts ev Hr [IHs IHt]|st ts1 ts2 R r k x Hr [IHs IHt] Hx]; simpl in *.
  - split; constructor.
  - destruct (advance_react ev st) as [Hb Ht]. rewrite Hb. split; [exact IHs|].
    apply Forall_app. split; [exact IHt|].
    destruct (snd (advance (react ev st) st)) as [t|]; constructor;
      [apply Ht; reflexivity | constructor].
  - apply Forall_app in IHt. destruct IHt as [H1 H2].
    apply Forall_cons_iff in H2. destruct H2 as [[Hnone Hk] H2]. split.
    + apply Hk; assumption.
    + rewrite Hnone. simpl. rewrite app_nil_r. apply Forall_app. split; assumption.
Qed.

(** Running a handler to completion is running it up to its [await]
    and resuming it with the reply of the server. *)
Lemma exec_advance (srv : server) (p : prog unit) (st : state) :
  final (exec srv p st) =
  match snd (advance p st) with
  | None => fst (advance p st)
  | Some (Suspended r k) => final (exec srv (k (srv _ r)) (fst (advance p st)))
  end.
Proof.
  revert st. induction p as [a| |f k IH|R r k IH]; intros st; simpl; auto.
Qed.

(** Events that run one after the other are a special case of handlers
    in flight. *)
Lemma reachable_running (st : state) : reachable st -> running (st, []).
Proof.
  induction 1 as [|st ev srv Hr IH Hrules]; [constructor|].
  pose proof (running_event st [] ev IH) as Hev.
  destruct (advance_react ev st) as [Hb Ht].
  rewrite exec_advance.
  destruct (snd (advance (react ev st) st)) as [[R r k]|] eqn:E; [|exact Hev].
  destruct (Ht _ eq_refl) as [Hnone _].
  pose proof (running_reply _ [] [] r k (srv _ r) Hev) as Hrep.
  rewrite Hb in Hrep. specialize (Hrep (Hrules _ r)).
  rewrite Hnone in Hrep. simpl in Hrep.
  rewrite exec_advance, Hnone. exact Hrep.
Qed.

(** A sufficient condition seen from the client: no two records of the
    collection have the same identifier in every state reached by
    events whose replies, when they arrive, meet the condition [allowed]
    for the store of that moment, whether the events run one after the
    other or overlap. *)
Theorem store_ids_distinct :
  (forall st, reachable st -> NoDup (ids (books st))) /\
  (forall st ts, running (st, ts) -> NoDup (ids (books st))).
Proof.
  split.
  - intros st. induction 1 as [|st ev srv Hr IH Hrules].
    + constructor.
    + destruct (react_store srv ev st)
        as [E|[E|[(l & Hl & E)|[(d & c & Hc & E)|[(u & E)|(i & E)]]]]];
        rewrite E.
      * exact IH.
      * constructor.
      * pose proof (Hrules _ GET) as H. simpl in H. rewrite Hl in H. exact H.
      * apply ids_append_NoDup; [exact IH|].
        pose proof (Hrules _ (POST d)) as H. simpl in H. rewrite Hc in H. exact H.
      * rewrite ids_replaceById. exact IH.
      * apply ids_removeById_NoDup. exact IH.
  - intros st ts H. apply (running_invariant (st, ts) H).
Qed.

Lemma echo_server_id_rules (store : list Book.t) :
  ~ In (IdStr "7") (ids store) -> id_rules echo_server store.
Proof.
  intros Hfresh R r. destruct r; simpl; auto.
  repeat constructor. simpl. tauto.
Qed.

Lemma store_ids_distinct_witness :
  let st1 := final (exec echo_server (react Mount init) init) in
  let st2 := final (exec echo_server (react (EditForm (fun _ => spaced_draft)) st1) st1) in
  let st3 := final (exec echo_server (react (Run Save) st2) st2) in
  ids (books st3) = [IdNum 1; IdStr "7"] /\ NoDup (ids (books st3)).
Proof.
  intros st1 st2 st3. split; [reflexivity|].
  apply (proj1 store_ids_distinct st3).
  assert (R1 : reachable st1).
  { apply reachable_step; [apply reachable_init|].
    apply echo_server_id_rules. simpl. tauto. }
  assert (R2 : reachable st2).
  { apply reachable_step; [exact R1|].
    apply echo_server_id_rules. simpl. intros [H|[]]. discriminate. }
  apply reachable_step; [exact R2|].
  apply echo_server_id_rules. simpl. intros [H|[]]. discriminate.
Defined.

(** The rule on created identifiers is needed: a create whose reply
    arrives at a store that already holds the created record, as after a
    listing fetched in between, leaves that identifier twice. *)
Example late_create_reply :
  let created := Book.mk (IdStr "7") "Emma" "Austen" "https://covers.test/emma.png" "" 5 false in
  let st := setForm (fun _ => spaced_draft) shelf in
  ids (books (final (exec echo_server (saveBook st)
                       (setBooks (fun _ => [dune; created]) st))))
  = [IdNum 1; IdStr "7"; IdStr "7"].
Proof. reflexivity. Qed.

(** *** Against the server *)

Lemma advance_react_reconciles (ev : event) (st cur : state) :
  books (fst (advance (react ev st) cur)) = books cur /\
  (forall t, snd (advance (react ev st) cur) = Some t -> reconciles t).
Proof.
  destruct ev as [| |book| |f|text| |i| |op]; simpl react;
    try (simpl; split; [reflexivity | discriminate]).
  - simpl. split; [reflexivity|]. intros t [= <-].
    intros [| |[l|]] s; split; reflexivity.
  - destruct op as [|book|]; simpl handler.
    + unfold saveBook.
      destruct (negb (JS.truthy_str (JS.trim (Form.title (form st))))
                || negb (JS.truthy_str (JS.trim (Form.author (form st)))));
        [simpl; split; [reflexivity | discriminate]|].
      destruct (editing st) as [e|]; simpl; (split; [reflexivity|]);
        intros t [= <-]; intros [| |x] s; split; reflexivity.
    + simpl. split; [reflexivity|]. intros t [= <-].
      intros [| |x] s; split; reflexivity.
    + unfold doDelete. destruct (confirmId st) as [i|];
        [|simpl; split; [reflexivity | discriminate]].
      destruct (negb (Id_truthy i)); [simpl; split; [reflexivity | discriminate]|].
      simpl. split; [reflexivity|]. intros t [= <-].
      intros [| |x] s; split; reflexivity.
Qed.









(** Operations that run one at a time are a special case of operations
    that overlap. *)
Lemma sequential_overlapping (st : state) (sigma : remote) :
  sequential st sigma -> overlapping st [] sigma.
Proof.
  induction 1 as [sigma Hs|st sigma ev st' sigma' Hseq IH Hstep];
    [constructor; exact Hs|].
  pose proof (overlapping_event _ _ _ ev IH) as Hev.
  destruct (advance_react_reconciles ev st st) as [_ Ht].
  destruct (advance (react ev st) st) as [s [[R r k]|]]; simpl in *.
  - destruct Hstep as (x & Hx & ->).
    pose proof (overlapping_serve _ [] [] _ r k x sigma' Hev Hx) as Hserved.
    pose proof (overlapping_deliver _ [] [] _ k x Hserved) as Hdone.
    destruct (Ht _ eq_refl x s) as [Hnone _]. rewrite Hnone in Hdone. exact Hdone.
  - destruct Hstep as [-> ->]. exact Hev.
Qed.


(** ** Texts that are not ASCII *)

Example trim_no_break_space : JS.trim " Emma  " = "Emma".
Proof. reflexivity. Qed.

Example trim_keeps_inner_space :
  JS.trim "　Jane Austen﻿" = "Jane Austen".
Proof. reflexivity. Qed.

Example lower_accented : JS.toLowerCase "ÉCOLE" = "école".
Proof. reflexivity. Qed.

Example lower_final_sigma : JS.toLowerCase "ΟΔΟΣ ΣΑΣ" = "οδος σας".
Proof. reflexivity. Qed.

Example lower_dotted_capital_i : JS.toLowerCase "İ" = "i̇".
Proof. reflexivity. Qed.

Example accented_title_is_found :
  let ecole := Book.mk (IdNum 3) "école" "Anon" placeholder "" 3 false in
  filtered (setQ "ÉCOLE" (setBooks (fun _ => [dune; ecole]) shelf)) = [ecole].
Proof. reflexivity. Qed.

(** ** The scenario of the specification *)

Example scenario_projection :
  filtered (setQ "dun" shelf) = [dune] /\
  filtered (setOnlyFav negb (setQ "dun" shelf)) = [] /\
  filtered
    (final (exec echo_server (toggleFav dune)
              (setOnlyFav negb (setQ "dun" shelf))))
  = [spread_toggle dune].
Proof. repeat split. Qed.

Example scenario_validation :
  let st := setForm (fun _ => Form.mk "" "X" "" "" 0) shelf in
  exec echo_server (saveBook st) st =
  mkOutcome (setToast (mkToast true "Please fill Title and Author" error) st)
            (Some tt) [].
Proof. reflexivity. Qed.

(** ** More about the primitives *)

Lemma substring_trans (a b c : string) :
  substring a b -> substring b c -> substring a c.
Proof.
  intros (p1 & q1 & ->) (p2 & q2 & ->).
  exists (p2 ++ p1)%string, (q1 ++ q2)%string.
  rewrite !append_assoc. reflexivity.
Qed.

Lemma filter_subsequence {A : Type} (f g : A -> bool) (l : list A) :
  (forall x, In x l -> f x = true -> g x = true) ->
  subsequence (List.filter f l) (List.filter g l).
Proof.
  induction l as [|x l IH]; simpl; intros H; [constructor|].
  assert (IH' : subsequence (List.filter f l) (List.filter g l))
    by (apply IH; intros y Hy; apply H; right; exact Hy).
  destruct (f x) eqn:F.
  - rewrite (H x (or_introl eq_refl) F). apply subsequence_keep. exact IH'.
  - destruct (g x); [apply subsequence_skip|]; exact IH'.
Qed.

Lemma subsequence_length {A : Type} (l m : list A) :
  subsequence l m -> (List.length l <= List.length m)%nat.
Proof. induction 1; simpl; lia. Qed.

(** ** Narrowing the view *)

(** X12: a query that contains another one, both trimmed and lowercased,
    shows a subsequence of what the other shows; and turning the
    favourites filter on shows a subsequence of what was shown.  For
    ASCII queries, lowercased means with a-z for A-Z. *)
Theorem narrower_filter_shows_fewer (st : state) (q1 q2 : string) :
  (substring (JS.toLowerCase (JS.trim q1)) (JS.toLowerCase (JS.trim q2)) ->
   subsequence (filtered (setQ q2 st)) (filtered (setQ q1 st))) /\
  (onlyFav st = false ->
   subsequence (filtered (setOnlyFav negb st)) (filtered st)) /\
  (asciiOnly q1 -> asciiOnly q2 ->
   substring (asciiLower (JS.trim q1)) (asciiLower (JS.trim q2)) ->
   subsequence (filtered (setQ q2 st)) (filtered (setQ q1 st))).
Proof.
  assert (K : substring (JS.toLowerCase (JS.trim q1)) (JS.toLowerCase (JS.trim q2)) ->
              subsequence (filtered (setQ q2 st)) (filtered (setQ q1 st))).
  { intros Hsub. rewrite !filtered_projection. unfold projection. simpl.
    apply filter_subsequence. intros b _. unfold visibleb. simpl.
    rewrite !andb_true_iff, !includes_substring. intros [Hf Hq].
    split; [exact Hf|]. apply (substring_trans _ _ _ Hsub Hq). }
  split; [exact K|]. split.
  - intros Hoff. rewrite !filtered_projection. unfold projection. simpl.
    apply filter_subsequence. intros b _. unfold visibleb. simpl.
    rewrite Hoff. simpl. rewrite andb_true_iff. tauto.
  - intros H1 H2 Hsub. apply K.
    rewrite (toLowerCase_ascii _ (trim_asciiOnly _ H1)),
            (toLowerCase_ascii _ (trim_asciiOnly _ H2)).
    exact Hsub.
Qed.

Lemma narrower_filter_shows_fewer_witness :
  subsequence (filtered (setQ "Dune" (setBooks (fun _ => [dune; emma]) shelf)))
              (filtered (setQ " E " (setBooks (fun _ => [dune; emma]) shelf))).
Proof.
  apply (proj1 (narrower_filter_shows_fewer
                  (setBooks (fun _ => [dune; emma]) shelf) " E " "Dune")).
  exists "dun"%string, ""%string. reflexivity.
Defined.

(** ** Every handler, every reply *)

(** Case analysis on the paths of [saveBook st], [toggleFav book] and
    [doDelete st] run against [srv] from the state [cur]. *)
Ltac run_save srv st cur :=
  let Ht := fresh "Ht" in
  let Ha := fresh "Ha" in
  let He := fresh "He" in
  let e := fresh "e" in
  let Hs := fresh "Hs" in
  destruct (string_dec (JS.trim (Form.title (form st))) "") as [Ht|Ht];
  [ rewrite (saveBook_invalid st (or_introl Ht))
  | destruct (string_dec (JS.trim (Form.author (form st))) "") as [Ha|Ha];
    [ rewrite (saveBook_invalid st (or_intror Ha))
    | destruct (editing st) as [e|] eqn:He;
      [ rewrite (exec_update srv st cur e Ht Ha He); cbv zeta;
        destruct (srv Book.t _) eqn:Hs
      | rewrite (exec_create srv st cur Ht Ha He); cbv zeta;
        destruct (srv Book.t _) eqn:Hs ] ] ].

Ltac run_toggle srv :=
  let Hs := fresh "Hs" in
  rewrite exec_toggleFav; destruct (srv Book.t _) eqn:Hs.

Ltac run_delete srv st cur :=
  let Hc := fresh "Hc" in
  let i := fresh "i" in
  let Hi := fresh "Hi" in
  let Ht := fresh "Ht" in
  let Hs := fresh "Hs" in
  destruct (confirmShown st) eqn:Hc;
  [ destruct (confirmShown_true st Hc) as [i [Hi Ht]];
    rewrite (exec_doDelete srv st cur i Hi Ht);
    destruct (srv unit _) eqn:Hs
  | rewrite (exec_doDelete_idle srv st cur Hc) ].

Ltac run_op op srv st cur :=
  destruct op as [|?book|]; simpl handler;
  [ run_save srv st cur | run_toggle srv | run_delete srv st cur ].

Ltac run_event ev srv st cur :=
  let Hs := fresh "Hs" in
  let op := fresh "op" in
  destruct ev as [| |?book| |?f|?text| |?i| |op]; simpl react;
  [ rewrite exec_initialLoad; destruct (srv listing GET) as [| |[?l|]] eqn:Hs
  | | | | | | | |
  | run_op op srv st cur ].

(** X14: whatever the event and whatever the server replies, the handler
    settles without an uncaught exception, issues at most one remote
    call (a failed call is not retried), and that call is addressed: a
    PUT goes to the identifier of the record it carries, a DELETE to a
    truthy identifier. *)
Theorem handlers_settle_with_one_call
  (ev : event) (srv : server) (st cur : state) :
  let o := exec srv (react ev st) cur in
  result o = Some tt /\
  (List.length (calls o) <= 1)%nat /\
  Forall addressed (calls o).
Proof.
  cbv zeta. run_event ev srv st cur; simpl;
    (split; [reflexivity|]); (split; [lia|]);
    repeat constructor; simpl; auto.
Qed.

(** X15: the store is changed by confirmed replies only.  Up to its
    [await] a handler leaves the collection as it is, and the handler it
    leaves in flight also leaves it as it is when the reply is a
    failure, whatever the state in which that reply arrives. *)
Theorem store_changes_on_confirmation_only (ev : event) (st cur : state) :
  books (fst (advance (react ev st) cur)) = books cur /\
  (forall t, snd (advance (react ev st) cur) = Some t -> idle_on_failure t).
Proof.
  destruct ev as [| |book| |f|text| |i| |op]; simpl react;
    try (simpl; split; [reflexivity | discriminate]).
  - simpl. split; [reflexivity|]. intros t [= <-].
    intros [| |x] s; simpl; [reflexivity | reflexivity | discriminate].
  - destruct op as [|book|]; simpl handler.
    + unfold saveBook.
      destruct (negb (JS.truthy_str (JS.trim (Form.title (form st))))
                || negb (JS.truthy_str (JS.trim (Form.author (form st)))));
        [simpl; split; [reflexivity | discriminate]|].
      destruct (editing st) as [e|]; simpl; (split; [reflexivity|]);
        intros t [= <-]; intros [| |x] s; simpl;
        [reflexivity | reflexivity | discriminate
        |reflexivity | reflexivity | discriminate].
    + simpl. split; [reflexivity|]. intros t [= <-].
      intros [| |x] s; simpl; [reflexivity | reflexivity | discriminate].
    + unfold doDelete. destruct (confirmId st) as [i|];
        [|simpl; split; [reflexivity | discriminate]].
      destruct (negb (Id_truthy i)); [simpl; split; [reflexivity | discriminate]|].
      simpl. split; [reflexivity|]. intros t [= <-].
      intros [| |x] s; simpl; [reflexivity | reflexivity | discriminate].
Qed.

Lemma store_changes_on_confirmation_only_witness :
  let st := setEditing (Some dune) (setForm (fun _ => spaced_draft) shelf) in
  books (fst (advance (react (Run Save) st) st)) = [dune] /\
  exists t, snd (advance (react (Run Save) st) st) = Some t /\ idle_on_failure t.
Proof.
  intros st.
  destruct (store_changes_on_confirmation_only (Run Save) st st) as [Hb Ht].
  split; [exact Hb|].
  destruct (snd (advance (react (Run Save) st) st)) as [t|] eqn:E;
    [|discriminate].
  exists t. split; [reflexivity|]. apply Ht. reflexivity.
Defined.

(** ** Save *)

Lemma trim_placeholder : JS.trim placeholder = placeholder.
Proof. reflexivity. Qed.

Lemma payload_presentable (f : Form.t) :
  JS.trim (Form.title f) <> "" ->
  JS.trim (Form.author f) <> "" ->
  presentable (Form.title (payload f)) (Form.author (payload f))
              (Form.coverImage (payload f)) (Form.description (payload f))
              (Form.rating (payload f)).
Proof.
  intros Ht Ha. unfold presentable, payload, JS.Number. simpl.
  rewrite !trim_idem, or_num_zero, clamp_max_min, or_str_eqb.
  destruct (String.eqb_spec (JS.trim (Form.coverImage f)) "") as [E|E].
  - rewrite trim_placeholder. repeat split; auto using clamp_range;
      try apply clamp_range; discriminate.
  - rewrite trim_idem. repeat split; auto; apply clamp_range.
Qed.

(** X3: every call that [saveBook] issues, as a create or as an update,
    carries a title and an author that are not empty, a cover that is
    not empty, texts without surrounding white space and a rating
    between 0 and 5; a create is never sent as a favourite.  A text is
    without surrounding white space when trimming leaves it as it is,
    and such a text neither begins nor ends with a white space
    character of ECMA-262, nor is it made of white space only unless it
    is empty. *)
Theorem save_requests_validated (srv : server) (st cur : state) :
  Forall validated (calls (exec srv (saveBook st) cur)) /\
  (forall t, JS.trim t = t ->
     (forall w u, In w JS.whiteSpaceChars ->
                  t <> (w ++ u)%string /\ t <> (u ++ w)%string) /\
     (blank t -> t = "")).
Proof.
  split.
  - run_save srv st cur; simpl; repeat constructor;
      try (apply (payload_presentable (form st)); assumption).
  - intros t Ht. split.
    + intros w u Hin. pose proof (proj2 (trim_trims t) w u Hin) as H.
      rewrite Ht in H. exact H.
    + intros Hb. apply trim_blank in Hb. congruence.
Qed.

(** X1: an update whose PUT succeeds sends, to the identifier of the
    record being edited, that record with the five draft fields
    replaced by their submitted form, its identifier and its favourite
    flag kept; it then replaces the stored record by the reply, closes
    the editor, empties the draft and shows a success notification.
    The submitted texts are those of the draft without the white space
    of ECMA-262 around them, a blank cover giving the placeholder. *)
Theorem update_submits_merged_record
  (srv : server) (st cur : state) (e updated : Book.t) :
  JS.trim (Form.title (form st)) <> "" ->
  JS.trim (Form.author (form st)) <> "" ->
  editing st = Some e ->
  let d := submitted (form st) in
  let data := Book.mk (Book.id e) (Body.title d) (Body.author d)
                      (Body.coverImage d) (Body.description d) (Body.rating d)
                      (Book.isFavorite e) in
  srv _ (PUT (Book.id e) data) = HttpOk updated ->
  let o := exec srv (saveBook st) cur in
  calls o = [Call (PUT (Book.id e) data)] /\
  books (final o) = replaceById updated (books cur) /\
  isModalOpen (final o) = false /\
  editing (final o) = None /\
  form (final o) = emptyForm /\
  toast (final o) = mkToast true "✅ Book updated" success /\
  (~ blank (Form.title (form st)) /\ ~ blank (Form.author (form st))) /\
  trims (Form.title (form st)) (Book.title data) /\
  trims (Form.author (form st)) (Book.author data) /\
  trims (Form.description (form st)) (Book.description data) /\
  (blank (Form.coverImage (form st)) -> Book.coverImage data = placeholder) /\
  (~ blank (Form.coverImage (form st)) ->
   trims (Form.coverImage (form st)) (Book.coverImage data)) /\
  Book.rating data = clamp 0 5 (Form.rating (form st)).
Proof.
  intros Ht Ha He d data Hs o. subst o.
  assert (E : spread_edit e (payload (form st)) = data).
  { unfold data, d. rewrite <- spread_create_submitted. reflexivity. }
  rewrite (exec_update srv st cur e Ht Ha He). cbv zeta.
  rewrite E, Hs. simpl.
  do 6 (split; [reflexivity|]).
  split; [split; intros Hb; apply trim_blank in Hb; contradiction|].
  destruct (submitted_trims (form st)) as (T1 & T2 & T3 & T4 & T5).
  split; [exact T1|]. split; [exact T2|]. split; [exact T3|].
  split; [exact T4|]. split; [exact T5|]. reflexivity.
Qed.

Lemma update_submits_merged_record_witness :
  let st := setEditing (Some emma) (setForm (fun _ => Form.mk " Emma " "Jane Austen" "" "" 7)
                                      (setBooks (fun _ => [dune; emma]) shelf)) in
  let o := exec echo_server (saveBook st) st in
  calls o = [Call (PUT (IdNum 2) (Book.mk (IdNum 2) "Emma" "Jane Austen" placeholder "" 5 true))] /\
  books (final o) = [dune; Book.mk (IdNum 2) "Emma" "Jane Austen" placeholder "" 5 true].
Proof.
  intros st o.
  destruct (update_submits_merged_record echo_server st st emma
              (Book.mk (IdNum 2) "Emma" "Jane Austen" placeholder "" 5 true))
    as (Hc & Hb & _); try reflexivity; try discriminate.
  split; [exact Hc | exact Hb].
Defined.

(** X4: a save that fails leaves the editor open, the record being
    edited and the draft as they were, so that saving again sends the
    same call; and when that second call succeeds the store ends as if
    the first one had. *)
Theorem failed_save_can_be_retried (srv srv' : server) (st : state) :
  (forall R (r : request R), fails (srv R r) = true) ->
  let o := exec srv (saveBook st) st in
  isModalOpen (final o) = isModalOpen st /\
  editing (final o) = editing st /\
  form (final o) = form st /\
  calls (exec srv' (saveBook (final o)) (final o)) = calls (exec srv' (saveBook st) st) /\
  books (final (exec srv' (saveBook (final o)) (final o))) =
  books (final (exec srv' (saveBook st) st)).
Proof.
  intros Hfail o.
  assert (K : isModalOpen (final o) = isModalOpen st /\
              editing (final o) = editing st /\
              form (final o) = form st /\
              books (final o) = books st).
  { subst o. run_save srv st st; simpl; repeat split; try assumption;
      match goal with
      | H : srv ?R ?r = HttpOk _ |- _ =>
          pose proof (Hfail R r) as F; rewrite H in F; discriminate
      end. }
  destruct K as (Km & Ke & Kf & Kb).
  split; [exact Km|]. split; [exact Ke|]. split; [exact Kf|].
  assert (G : forall a b : state,
             form a = form b -> editing a = editing b -> books a = books b ->
             calls (exec srv' (saveBook a) a) = calls (exec srv' (saveBook b) b) /\
             books (final (exec srv' (saveBook a) a)) =
             books (final (exec srv' (saveBook b) b))).
  { intros a b Hf He Hb.
    destruct (string_dec (JS.trim (Form.title (form b))) "") as [Ht|Ht].
    { rewrite (saveBook_invalid b (or_introl Ht)).
      rewrite <- Hf in Ht. rewrite (saveBook_invalid a (or_introl Ht)).
      simpl. split; [reflexivity | exact Hb]. }
    destruct (string_dec (JS.trim (Form.author (form b))) "") as [Ha|Ha].
    { rewrite (saveBook_invalid b (or_intror Ha)).
      rewrite <- Hf in Ha. rewrite (saveBook_invalid a (or_intror Ha)).
      simpl. split; [reflexivity | exact Hb]. }
    assert (Ht' := Ht). assert (Ha' := Ha). rewrite <- Hf in Ht', Ha'.
    destruct (editing b) as [e|] eqn:Eb.
    - rewrite (exec_update srv' b b e Ht Ha Eb).
      rewrite (exec_update srv' a a e Ht' Ha' He).
      cbv zeta. rewrite Hf. destruct (srv' Book.t _); simpl; rewrite Hb; auto.
    - rewrite (exec_create srv' b b Ht Ha Eb).
      rewrite (exec_create srv' a a Ht' Ha' He).
      cbv zeta. rewrite Hf. destruct (srv' Book.t _); simpl; rewrite Hb; auto. }
  apply G; assumption.
Qed.

Lemma failed_save_can_be_retried_witness :
  let st := setIsModalOpen true (setForm (fun _ => spaced_draft) shelf) in
  let o := exec failing_server (saveBook st) st in
  isModalOpen (final o) = true /\
  form (final o) = spaced_draft /\
  books (final (exec echo_server (saveBook (final o)) (final o))) =
  [dune; Book.mk (IdStr "7") "Emma" "Austen" "https://covers.test/emma.png" "" 5 false].
Proof.
  intros st o.
  destruct (failed_save_can_be_retried failing_server echo_server st)
    as (Hm & _ & Hf & _ & Hb).
  - intros R r. reflexivity.
  - split; [exact Hm|]. split; [exact Hf|]. etransitivity; [exact Hb | reflexivity].
Defined.

(** ** Notifications and the loader *)

(** X10: an operation that issued its call ends with a notification on
    display whose kind tells the outcome: [error] when the call was
    refused, otherwise [info] for a toggle and [success] for a save or
    a delete. *)
Theorem toast_tells_outcome (op : operation) (srv : server) (st cur : state) :
  let o := exec srv (handler op st) cur in
  calls o <> [] ->
  show (toast (final o)) = true /\
  type (toast (final o)) =
    (if existsb (refused srv) (calls o) then error
     else match op with
          | ToggleFavorite _ => info
          | _ => success
          end).
Proof.
  cbv zeta. run_op op srv st cur; simpl; intros Hcalls;
    try (contradiction Hcalls; reflexivity);
    match goal with
    | H : srv _ _ = _ |- _ => rewrite H
    end; simpl; split; reflexivity.
Qed.

Lemma toast_tells_outcome_witness :
  let st := setConfirmId (Some (IdNum 1)) shelf in
  type (toast (final (exec failing_server (handler Delete st) st))) = error /\
  type (toast (final (exec echo_server (handler Delete st) st))) = success.
Proof.
  intros st. split.
  - apply (toast_tells_outcome Delete failing_server st st). discriminate.
  - apply (toast_tells_outcome Delete echo_server st st). discriminate.
Defined.

(** X9: the initial load turns the loader off whatever the reply, and
    with a listing it makes the listing the store without touching the
    notification; once the loader is off no event turns it on again, so
    the main view is the grid or the empty card. *)
Theorem loader_goes_and_stays_away
  (ev : event) (srv : server) (st cur : state) :
  loading (final (exec srv initialLoad cur)) = false /\
  (forall l, srv _ GET = HttpOk (JArray l) ->
     books (final (exec srv initialLoad cur)) = l /\
     toast (final (exec srv initialLoad cur)) = toast cur) /\
  (loading cur = false ->
   loading (final (exec srv (react ev st) cur)) = false /\
   mainView (final (exec srv (react ev st) cur)) <> Loader).
Proof.
  split; [|split].
  - rewrite exec_initialLoad. destruct (srv listing GET); reflexivity.
  - intros l H. rewrite exec_initialLoad, H. split; reflexivity.
  - intros Hl.
    assert (K : loading (final (exec srv (react ev st) cur)) = false)
      by (run_event ev srv st cur; simpl; auto).
    split; [exact K|]. unfold mainView. rewrite K.
    destruct (Nat.eqb _ 0); discriminate.
Qed.

Lemma loader_goes_and_stays_away_witness :
  mainView (final (exec echo_server (react (Search "zzz") shelf) shelf)) =
  EmptyCard "Try adding a book or changing the search." /\
  mainView (final (exec echo_server (react (Search "zzz") shelf) shelf)) <> Loader.
Proof.
  split; [reflexivity|].
  apply (loader_goes_and_stays_away (Search "zzz") echo_server shelf shelf).
  reflexivity.
Defined.

(** ** Replies that arrive late *)

(** X11: two toggles started from the same card, before the first reply
    has been rendered, send the same record twice: with an echoing
    server the second leaves the store as the first left it, so the
    flag is flipped once. *)
Theorem stale_double_toggle_flips_once (srv : server) (cur : state) (r : Book.t) :
  echoes srv ->
  let o1 := exec srv (toggleFav r) cur in
  let o2 := exec srv (toggleFav r) (final o1) in
  calls o2 = calls o1 /\
  books (final o2) = books (final o1) /\
  books (final o2) = replaceById (spread_toggle r) (books cur).
Proof.
  intros He o1 o2. subst o1 o2.
  assert (B : forall s, books (final (exec srv (toggleFav r) s)) =
                        replaceById (spread_toggle r) (books s))
    by (intros s; apply exec_toggleFav_echo; exact He).
  split; [|split].
  - rewrite !exec_toggleFav.
    change (Book.id r) with (Book.id (spread_toggle r)). rewrite He. reflexivity.
  - rewrite B, B. apply replaceById_twice. reflexivity.
  - rewrite B, B. apply replaceById_twice. reflexivity.
Qed.

Lemma stale_double_toggle_flips_once_witness :
  books (final (exec echo_server (toggleFav dune)
                  (final (exec echo_server (toggleFav dune) shelf)))) =
  [spread_toggle dune].
Proof.
  destruct (stale_double_toggle_flips_once echo_server shelf dune) as (_ & _ & H).
  - intros [i t a c d r f]. reflexivity.
  - exact H.
Defined.

Lemma removeById_gone (i : Id) (l : list Book.t) : ~ In i (ids (removeById i l)).
Proof.
  unfold ids. rewrite in_map_iff. intros [b [Hb Hin]].
  apply removeById_In in Hin. destruct Hin as [_ Hne]. exact (Hne Hb).
Qed.

(** X16: a PUT reply that arrives after the record was deleted does not
    bring it back: when a toggle of a record with identifier [i] is
    resumed on the store left by a successful delete of [i], and the
    reply keeps the identifier of the call, the store stays as the
    delete left it, without any record of identifier [i]. *)
Theorem late_put_does_not_resurrect
  (srv srv' : server) (st cur : state) (r : Book.t) (i : Id) :
  confirmId st = Some i ->
  Id_truthy i = true ->
  fails (srv _ (DELETE i)) = false ->
  Book.id r = i ->
  allowed (PUT (Book.id r) (spread_toggle r))
          (srv' _ (PUT (Book.id r) (spread_toggle r))) (books cur) ->
  let s1 := final (exec srv (doDelete st) cur) in
  let s2 := final (exec srv' (toggleFav r) s1) in
  books s2 = books s1 /\ ~ In i (ids (books s2)).
Proof.
  intros Hi Ht Hok Hr Hrule s1 s2.
  assert (B1 : books s1 = removeById i (books cur)).
  { unfold s1. rewrite (exec_doDelete srv st cur i Hi Ht).
    destruct (srv unit (DELETE i)); [discriminate | discriminate | reflexivity]. }
  assert (B2 : books s2 = books s1).
  { unfold s2. rewrite exec_toggleFav. simpl in Hrule.
    destruct (srv' Book.t _) as [| |u]; [reflexivity | reflexivity |].
    simpl. rewrite B1. apply replaceById_absent. intros b Hb E.
    apply removeById_In in Hb. destruct Hb as [_ Hne].
    apply Hne. rewrite E, Hrule. exact Hr. }
  split; [exact B2|]. rewrite B2, B1. apply removeById_gone.
Qed.

Lemma late_put_does_not_resurrect_witness :
  let st := setConfirmId (Some (IdNum 1)) shelf in
  books (final (exec echo_server (toggleFav dune)
                  (final (exec echo_server (doDelete st) st)))) = [].
Proof.
  intros st.
  exact (proj1 (late_put_does_not_resurrect echo_server echo_server st st dune
                  (IdNum 1) eq_refl eq_refl eq_refl eq_refl eq_refl)).
Defined.

(** ** The header counters *)

Lemma favorites_replace (u r : Book.t) (l : list Book.t) :
  NoDup (ids l) -> In r l -> Book.id u = Book.id r ->
  (List.length (List.filter Book.isFavorite (replaceById u l))
   + b2n (Book.isFavorite r)
   = List.length (List.filter Book.isFavorite l) + b2n (Book.isFavorite u))%nat.
Proof.
  intros Hnd Hin Hid. induction l as [|b l IH]; [contradiction|].
  unfold ids in Hnd. simpl in Hnd. apply NoDup_cons_iff in Hnd.
  destruct Hnd as [Hni Hnd]. destruct Hin as [->|Hin].
  - change (replaceById u (r :: l)) with
      ((if Id_eqb (Book.id r) (Book.id u) then u else r) :: replaceById u l).
    rewrite Hid, Id_eqb_refl, replaceById_absent.
    + simpl. destruct (Book.isFavorite u), (Book.isFavorite r); simpl; lia.
    + intros b Hb E. apply Hni. rewrite <- Hid, <- E. apply in_map. exact Hb.
  - change (replaceById u (b :: l)) with
      ((if Id_eqb (Book.id b) (Book.id u) then u else b) :: replaceById u l).
    destruct (Id_eqb (Book.id b) (Book.id u)) eqn:E.
    + apply Id_eqb_eq in E. exfalso. apply Hni. rewrite E, Hid.
      apply in_map. exact Hin.
    + specialize (IH Hnd Hin). simpl.
      destruct (Book.isFavorite b); simpl; lia.
Qed.

(** X5: the header counts follow a confirmed toggle: with distinct
    identifiers in the store and an echoing server, toggling a stored
    record keeps the total and moves the number of favourites by one,
    up when the record was not a favourite and down when it was; the
    number of favourites and the number of records shown never exceed
    the total. *)
Theorem counters_follow_toggle (srv : server) (cur : state) (r : Book.t) :
  NoDup (ids (books cur)) ->
  In r (books cur) ->
  echoes srv ->
  let s1 := final (exec srv (toggleFav r) cur) in
  total s1 = total cur /\
  (favorites s1 + b2n (Book.isFavorite r)
   = favorites cur + b2n (negb (Book.isFavorite r)))%nat /\
  (favorites s1 <= total s1)%nat /\
  (List.length (filtered s1) <= total s1)%nat.
Proof.
  intros Hnd Hin He s1.
  assert (B : books s1 = replaceById (spread_toggle r) (books cur))
    by (apply exec_toggleFav_echo; exact He).
  unfold total, favorites. rewrite B.
  split; [apply length_map|]. split.
  - apply (favorites_replace (spread_toggle r) r); auto.
  - split.
    + apply subsequence_length, subsequence_filter.
    + rewrite <- B. rewrite filtered_projection.
      apply subsequence_length, subsequence_filter.
Qed.

Lemma counters_follow_toggle_witness :
  let cur := setBooks (fun _ => [dune; emma]) shelf in
  let s1 := final (exec echo_server (toggleFav emma) cur) in
  total s1 = 2%nat /\ favorites cur = 1%nat /\ favorites s1 = 0%nat.
Proof.
  intros cur s1.
  assert (E : echoes echo_server) by (intros [i t a c d r f]; reflexivity).
  assert (N : NoDup (ids (books cur)))
    by (repeat constructor; simpl; intuition discriminate).
  assert (I : In emma (books cur)) by (right; left; reflexivity).
  destruct (counters_follow_toggle echo_server cur emma N I E) as (Ht & Hf & _).
  split; [exact Ht|]. split; [reflexivity|].
  change (favorites cur) with 1%nat in Hf. simpl b2n in Hf.
  fold s1 in Hf. lia.
Defined.

(** ** Delete, again *)

Lemma removeById_absent (i : Id) (l : list Book.t) :
  ~ In i (ids l) -> removeById i l = l.
Proof.
  unfold removeById, ids. induction l as [|b l IH]; simpl; intros H; [reflexivity|].
  destruct (Id_eqb (Book.id b) i) eqn:E.
  - apply Id_eqb_eq in E. exfalso. apply H. left. exact E.
  - simpl. rewrite IH; [reflexivity|]. intros Hin. apply H. right. exact Hin.
Qed.

Lemma removeById_length (i : Id) (l : list Book.t) :
  NoDup (ids l) -> In i (ids l) ->
  S (List.length (removeById i l)) = List.length l.
Proof.
  unfold ids. induction l as [|b l IH]; simpl; intros Hnd Hin; [contradiction|].
  apply NoDup_cons_iff in Hnd. destruct Hnd as [Hni Hnd].
  destruct (Id_eqb (Book.id b) i) eqn:E; simpl.
  - apply Id_eqb_eq in E. subst i. fold (ids l) in Hni.
    rewrite (removeById_absent _ l Hni). reflexivity.
  - apply Id_eqb_neq in E. destruct Hin as [Hin|Hin]; [contradiction|].
    rewrite (IH Hnd Hin). reflexivity.
Qed.

(** X6: a confirmed delete of the target [i] leaves no record with that
    identifier; it leaves the store as it was when no record had it (a
    no-op, not an error), shortens a store with distinct identifiers by
    exactly one when a record had it, and changes nothing more when it
    is run a second time. *)
Theorem delete_removes_once (srv : server) (st cur : state) (i : Id) :
  confirmId st = Some i ->
  Id_truthy i = true ->
  fails (srv _ (DELETE i)) = false ->
  let s1 := final (exec srv (doDelete st) cur) in
  ~ In i (ids (books s1)) /\
  (~ In i (ids (books cur)) -> books s1 = books cur) /\
  (NoDup (ids (books cur)) -> In i (ids (books cur)) -> S (total s1) = total cur) /\
  books (final (exec srv (doDelete st) s1)) = books s1.
Proof.
  intros Hi Ht Hok s1.
  assert (B : forall s, books (final (exec srv (doDelete st) s)) =
                        removeById i (books s)).
  { intros s. rewrite (exec_doDelete srv st s i Hi Ht).
    destruct (srv unit (DELETE i)); [discriminate | discriminate | reflexivity]. }
  unfold s1, total. rewrite !B.
  split; [apply removeById_gone|]. split; [apply removeById_absent|].
  split; [apply removeById_length|].
  apply removeById_absent, removeById_gone.
Qed.

Lemma delete_removes_once_witness :
  let st := setConfirmId (Some (IdNum 2)) (setBooks (fun _ => [dune; emma]) shelf) in
  let s1 := final (exec echo_server (doDelete st) st) in
  books s1 = [dune] /\ ~ In (IdNum 2) (ids (books s1)).
Proof.
  intros st s1. split; [reflexivity|].
  exact (proj1 (delete_removes_once echo_server st st (IdNum 2)
                  eq_refl eq_refl eq_refl)).
Defined.

(** ** Stars *)

Lemma clamp_cases (x : Z) :
  clamp 0 5 x = 0 \/ clamp 0 5 x = 1 \/ clamp 0 5 x = 2 \/
  clamp 0 5 x = 3 \/ clamp 0 5 x = 4 \/ clamp 0 5 x = 5.
Proof. pose proof (clamp_range x). lia. Qed.

Lemma StarRating_v_clamp (value : Z) : StarRating.v value = clamp 0 5 value.
Proof.
  unfold StarRating.v, JS.Number. rewrite or_num_zero. apply clamp_max_min.
Qed.

Lemma BookCard_rating_clamp (b : Book.t) :
  BookCard.rating b = clamp 0 5 (Book.rating b).
Proof.
  unfold BookCard.rating, JS.Number. rewrite or_num_zero. apply clamp_max_min.
Qed.

Lemma active_lit (value : Z) :
  lit (List.map (StarRating.active value) StarRating.stars)
  = Z.to_nat (clamp 0 5 value).
Proof.
  unfold StarRating.active. rewrite StarRating_v_clamp.
  destruct (clamp_cases value) as [E|[E|[E|[E|[E|E]]]]]; rewrite E; reflexivity.
Qed.

Lemma starsLine_lit (b : Book.t) :
  lit (BookCard.starsLine b) = Z.to_nat (clamp 0 5 (Book.rating b)).
Proof.
  unfold BookCard.starsLine. rewrite BookCard_rating_clamp.
  destruct (clamp_cases (Book.rating b)) as [E|[E|[E|[E|[E|E]]]]];
    rewrite E; reflexivity.
Qed.

(** X8: the star widget of the editor and the star line of a card both
    light as many stars as the rating clamped to [0,5], never more than
    five; each writes "No rating" exactly when that number is zero. *)
Theorem stars_show_clamped_rating (value : Z) (b : Book.t) :
  lit (List.map (StarRating.active value) StarRating.stars)
  = Z.to_nat (clamp 0 5 value) /\
  lit (BookCard.starsLine b) = Z.to_nat (clamp 0 5 (Book.rating b)) /\
  (lit (List.map (StarRating.active value) StarRating.stars) <= 5)%nat /\
  (lit (BookCard.starsLine b) <= 5)%nat /\
  (StarRating.hint value = "No rating" <-> clamp 0 5 value = 0) /\
  (BookCard.ratingPill b = "No rating" <-> clamp 0 5 (Book.rating b) = 0).
Proof.
  split; [apply active_lit|]. split; [apply starsLine_lit|].
  split; [rewrite active_lit; pose proof (clamp_range value); lia|].
  split; [rewrite starsLine_lit; pose proof (clamp_range (Book.rating b)); lia|].
  split.
  - unfold StarRating.hint. rewrite StarRating_v_clamp.
    destruct (clamp_cases value) as [E|[E|[E|[E|[E|E]]]]]; rewrite E; simpl;
      split; congruence.
  - unfold BookCard.ratingPill. rewrite BookCard_rating_clamp.
    destruct (clamp_cases (Book.rating b)) as [E|[E|[E|[E|[E|E]]]]];
      rewrite E; simpl; split; congruence.
Qed.

(** X7: a click on a star button or on the clear button puts that
    number in the draft and leaves its other fields alone; the widget
    then lights that many stars, and a save submits that rating. *)
Theorem picked_star_is_submitted (srv : server) (st : state) (star : Z) :
  In star (0 :: StarRating.stars) ->
  let st1 := final (exec srv (setRating star) st) in
  ratingValue st1 = star /\
  lit (List.map (StarRating.active (ratingValue st1)) StarRating.stars)
  = Z.to_nat star /\
  Form.rating (payload (form st1)) = star /\
  Body.rating (submitted (form st1)) = star /\
  Form.title (form st1) = Form.title (form st) /\
  Form.author (form st1) = Form.author (form st) /\
  Form.coverImage (form st1) = Form.coverImage (form st) /\
  Form.description (form st1) = Form.description (form st) /\
  books st1 = books st.
Proof.
  intros H. simpl in H.
  destruct H as [<-|[<-|[<-|[<-|[<-|[<-|[]]]]]]]; simpl; repeat split.
Qed.

Lemma picked_star_is_submitted_witness :
  let st1 := final (exec echo_server (setRating 3) shelf) in
  ratingValue st1 = 3 /\ Form.rating (payload (form st1)) = 3.
Proof.
  intros st1.
  destruct (picked_star_is_submitted echo_server shelf 3) as (H1 & _ & H2 & _).
  - simpl. tauto.
  - split; [exact H1 | exact H2].
Defined.

(** ** Cards *)

Lemma or_str_solid (a b : string) : a <> "" -> JS.or_str a b = a.
Proof. destruct a; [congruence | reflexivity]. Qed.

Lemma clamp_in_range (x : Z) : 0 <= x <= 5 -> clamp 0 5 x = x.
Proof.
  intros H. unfold clamp.
  destruct (Z.ltb_spec x 0), (Z.ltb_spec 5 x); lia.
Qed.

(** X17: a card never has an empty cover address and never a rating
    outside [0,5]; for a record whose fields are presentable it shows
    the cover, the rating and the description as they are stored, with
    the placeholder text for an empty description. *)
Theorem card_shows_record (b : Book.t) :
  BookCard.cover b <> "" /\
  0 <= BookCard.rating b <= 5 /\
  BookCard.description b <> "" /\
  (normalised b ->
   BookCard.cover b = Book.coverImage b /\
   BookCard.rating b = Book.rating b /\
   lit (BookCard.starsLine b) = Z.to_nat (Book.rating b) /\
   (Book.description b <> "" -> BookCard.description b = Book.description b)).
Proof.
  split; [|split; [|split]].
  - unfold BookCard.cover. destruct (Book.coverImage b); discriminate.
  - rewrite BookCard_rating_clamp. apply clamp_range.
  - unfold BookCard.description. destruct (Book.description b); discriminate.
  - intros (_ & _ & _ & _ & Hc & _ & _ & Hr).
    split; [apply or_str_solid; exact Hc|].
    split; [rewrite BookCard_rating_clamp; apply clamp_in_range; exact Hr|].
    split.
    + rewrite starsLine_lit, clamp_in_range by exact Hr. reflexivity.
    + intros Hd. unfold BookCard.description.
      destruct (Book.description b); [congruence | reflexivity].
Qed.

Lemma card_shows_record_witness :
  BookCard.cover emma = placeholder /\
  BookCard.rating emma = 5 /\
  lit (BookCard.starsLine emma) = 5%nat.
Proof.
  destruct (card_shows_record emma) as (_ & _ & _ & H).
  destruct H as (Hc & Hr & Hl & _).
  - unfold normalised, presentable. simpl.
    repeat split; try discriminate; try reflexivity; lia.
  - split; [exact Hc|]. split; [exact Hr | exact Hl].
Defined.

(** ** Editing without a change *)

Lemma reopened_payload (b : Book.t) :
  normalised b ->
  payload (Form.mk (JS.or_str (Book.title b) "") (JS.or_str (Book.author b) "")
                   (JS.or_str (Book.coverImage b) "")
                   (JS.or_str (Book.description b) "")
                   (JS.Number (JS.or_num (Book.rating b) 0)))
  = Form.mk (Book.title b) (Book.author b) (Book.coverImage b)
            (Book.description b) (Book.rating b).
Proof.
  intros (Ht & Tt & Ha & Ta & Hc & Tc & Td & Hr).
  unfold payload, JS.Number. simpl.
  rewrite !or_str_empty, !or_num_zero, Tt, Ta, Tc, Td, clamp_max_min.
  rewrite (or_str_solid _ _ Hc), (clamp_in_range _ Hr). reflexivity.
Qed.

(** X2: opening the editor on a stored record whose fields are
    presentable and saving without a change sends that very record to
    its own identifier; with an echoing server and distinct identifiers
    the store ends as it was. *)
Theorem edit_without_change_round_trips (srv : server) (cur : state) (b : Book.t) :
  normalised b ->
  let st1 := final (exec srv (openEdit b) cur) in
  let o := exec srv (saveBook st1) st1 in
  editing st1 = Some b /\
  isModalOpen st1 = true /\
  books st1 = books cur /\
  calls o = [Call (PUT (Book.id b) b)] /\
  (echoes srv -> In b (books cur) -> NoDup (ids (books cur)) ->
   books (final o) = books cur).
Proof.
  intros Hn st1 o.
  assert (Hp := reopened_payload b Hn).
  destruct Hn as (Ht & Tt & Ha & Ta & _).
  assert (E1 : editing st1 = Some b) by reflexivity.
  assert (T1 : JS.trim (Form.title (form st1)) <> "")
    by (simpl; rewrite or_str_empty, Tt; exact Ht).
  assert (A1 : JS.trim (Form.author (form st1)) <> "")
    by (simpl; rewrite or_str_empty, Ta; exact Ha).
  assert (D : spread_edit b (payload (form st1)) = b).
  { simpl form. rewrite Hp. destruct b; reflexivity. }
  split; [exact E1|]. split; [reflexivity|]. split; [reflexivity|].
  unfold o. rewrite (exec_update srv st1 st1 b T1 A1 E1). cbv zeta. rewrite D.
  split; [destruct (srv Book.t (PUT (Book.id b) b)); reflexivity|].
  intros He Hin Hnd. rewrite He. simpl. apply replaceById_self; assumption.
Qed.

Lemma edit_without_change_round_trips_witness :
  let cur := setBooks (fun _ => [dune; emma]) shelf in
  let st1 := final (exec echo_server (openEdit emma) cur) in
  let o := exec echo_server (saveBook st1) st1 in
  calls o = [Call (PUT (IdNum 2) emma)] /\ books (final o) = [dune; emma].
Proof.
  intros cur st1 o.
  assert (N : normalised emma).
  { unfold normalised, presentable. simpl.
    repeat split; try discriminate; try reflexivity; lia. }
  destruct (edit_without_change_round_trips echo_server cur emma N)
    as (_ & _ & _ & Hc & Hb).
  split; [exact Hc|]. apply Hb.
  - intros [i t a c d r f]. reflexivity.
  - right. left. reflexivity.
  - repeat constructor; simpl; intuition discriminate.
Defined.

(** ** Kinds of failure *)

(** X18: a handler does not distinguish a rejected [fetch] from a status
    that is not a success: run against two servers whose replies are
    alike (the same body, or two failures of whatever kind), an event
    ends in the same state with the same calls. *)
Theorem failure_kinds_collapse (ev : event) (srv1 srv2 : server) (st cur : state) :
  (forall R (r : request R), alike (srv1 R r) (srv2 R r)) ->
  exec srv1 (react ev st) cur = exec srv2 (react ev st) cur.
Proof.
  intros Hsame.
  destruct ev as [| |book| |f|text| |i| |op]; simpl react; try reflexivity.
  - rewrite !exec_initialLoad. pose proof (Hsame _ GET) as H.
    destruct (srv1 listing GET), (srv2 listing GET); simpl in H;
      try contradiction; subst; reflexivity.
  - destruct op as [|book|]; simpl handler.
    + destruct (string_dec (JS.trim (Form.title (form st))) "") as [Ht|Ht];
        [rewrite (saveBook_invalid st (or_introl Ht)); reflexivity|].
      destruct (string_dec (JS.trim (Form.author (form st))) "") as [Ha|Ha];
        [rewrite (saveBook_invalid st (or_intror Ha)); reflexivity|].
      destruct (editing st) as [e|] eqn:He.
      * rewrite (exec_update srv1 st cur e Ht Ha He),
                (exec_update srv2 st cur e Ht Ha He). cbv zeta.
        pose proof (Hsame _ (PUT (Book.id e) (spread_edit e (payload (form st))))) as H.
        destruct (srv1 Book.t _), (srv2 Book.t _); simpl in H;
          try contradiction; subst; reflexivity.
      * rewrite (exec_create srv1 st cur Ht Ha He),
                (exec_create srv2 st cur Ht Ha He). cbv zeta.
        pose proof (Hsame _ (POST (spread_create (payload (form st))))) as H.
        destruct (srv1 Book.t _), (srv2 Book.t _); simpl in H;
          try contradiction; subst; reflexivity.
    + rewrite !exec_toggleFav.
      pose proof (Hsame _ (PUT (Book.id book) (spread_toggle book))) as H.
      destruct (srv1 Book.t _), (srv2 Book.t _); simpl in H;
        try contradiction; subst; reflexivity.
    + destruct (confirmShown st) eqn:Hc.
      * destruct (confirmShown_true st Hc) as [i [Hi Ht]].
        rewrite (exec_doDelete srv1 st cur i Hi Ht),
                (exec_doDelete srv2 st cur i Hi Ht).
        pose proof (Hsame _ (DELETE i)) as H.
        destruct (srv1 unit _), (srv2 unit _); simpl in H;
          try contradiction; reflexivity.
      * rewrite !exec_doDelete_idle by exact Hc. reflexivity.
Qed.

Lemma failure_kinds_collapse_witness :
  exec failing_server (react (Run (ToggleFavorite dune)) shelf) shelf =
  exec (fun _ _ => NetworkFailure) (react (Run (ToggleFavorite dune)) shelf) shelf.
Proof.
  apply (failure_kinds_collapse (Run (ToggleFavorite dune))
           failing_server (fun _ _ => NetworkFailure) shelf shelf).
  intros R r. exact I.
Defined.

(** ** Saving twice *)

(** X19: nothing guards a save in flight: two saves of a valid new draft
    started from the same render send the same body twice, and when
    both POSTs succeed both returned records are appended. *)
Theorem stale_double_save_creates_twice
  (srv1 srv2 : server) (st cur : state) (c1 c2 : Book.t) :
  JS.trim (Form.title (form st)) <> "" ->
  JS.trim (Form.author (form st)) <> "" ->
  editing st = None ->
  srv1 _ (POST (submitted (form st))) = HttpOk c1 ->
  srv2 _ (POST (submitted (form st))) = HttpOk c2 ->
  let o1 := exec srv1 (saveBook st) cur in
  let o2 := exec srv2 (saveBook st) (final o1) in
  calls o1 = [Call (POST (submitted (form st)))] /\
  calls o2 = calls o1 /\
  books (final o2) = (books cur ++ [c1; c2])%list /\
  total (final o2) = S (S (total cur)).
Proof.
  intros Ht Ha He H1 H2 o1 o2. subst o1 o2.
  rewrite !(exec_create _ st _ Ht Ha He). cbv zeta.
  rewrite spread_create_submitted, H1, H2. unfold total. simpl.
  rewrite <- app_assoc. simpl.
  repeat split. rewrite length_app. simpl. lia.
Qed.

Lemma stale_double_save_creates_twice_witness :
  let st := setForm (fun _ => spaced_draft) shelf in
  let o1 := exec echo_server (saveBook st) st in
  let o2 := exec echo_server (saveBook st) (final o1) in
  total (final o2) = 3%nat.
Proof.
  intros st o1 o2.
  refine (proj2 (proj2 (proj2
    (stale_double_save_creates_twice echo_server echo_server st st
       (Book.mk (IdStr "7") "Emma" "Austen" "https://covers.test/emma.png" "" 5 false)
       (Book.mk (IdStr "7") "Emma" "Austen" "https://covers.test/emma.png" "" 5 false)
       _ _ eq_refl eq_refl eq_refl)))); discriminate.
Defined.
